(** * Heat diffusion from a sinking slab: a model of [diffusion.py]

    The script keeps two numpy arrays of shape [(nx, ny)], [u0] (the
    previous state) and [u] (the next state, allocated with [np.empty]),
    and runs [nsteps] iterations of "shift the slab down, then apply the
    explicit five-point diffusion update with fixed boundary values".

    Arrays are lists of rows over the rationals: binary64 rounding is
    abstracted to exact arithmetic ([Binary64] below evaluates the
    script's constants in binary64 itself).  Array objects live in a
    store indexed by locations, because the script mutates [u0] and [u]
    in place and hands out copies. *)

From Stdlib Require Import QArith Qfield Lqa PrimFloat.
From stdpp Require Import base option list gmap.

Local Open Scope Q_scope.

(** ** Parameters of the script (lines 33-56, 87-90) *)

Definition w : Q := 100.
Definition h : Q := 100.
Definition dx : Q := 1.
Definition dy : Q := 1.
Definition K : Q := 87000000.
Definition Tslab : Q := 0.
Definition Tmantle : Q := 1300.

(** [int(w/dx), int(h/dy)] *)
Definition nx : nat := 100.
Definition ny : nat := 100.

Definition dx2 : Q := dx * dx.
Definition dy2 : Q := dy * dy.
Definition dt : Q := dx2 * dy2 / (2 * K * (dx2 + dy2)).

Definition nsteps : nat := 100.
Definition mfig : list nat := [0; 10; 50; 99]%nat.

(** ** Arrays *)

Abbreviation grid := (list (list Q)).

(** [g[r,c]], where the array has such a cell. *)
Definition lookup2 (g : grid) (r c : nat) : option Q :=
  g !! r ≫= (.!! c).

(** Observation of one cell; [0] outside the array. *)
Definition cell (g : grid) (r c : nat) : Q :=
  default 0 (lookup2 g r c).

(** An array of shape [(nx, ny)]. *)
Definition shaped (g : grid) : Prop :=
  length g = nx ∧ Forall (λ row, length row = ny) g.

#[export] Instance shaped_dec (g : grid) : Decision (shaped g).
Proof. unfold shaped. apply _. Defined.

(** [Tmantle * np.ones((nx, ny))] *)
Definition full (v : Q) : grid := replicate nx (replicate ny v).

Section slices.
Context {A : Type}.

(** [l[lo:hi]] for non-negative bounds; Python clips both bounds to the
    length and yields the empty slice when [hi <= lo]. *)
Definition slice (lo hi : nat) (l : list A) : list A :=
  drop lo (take hi l).

(** [l[lo:hi] = src], in place: position [lo + k] receives [src[k]].
    The length of [l] never changes. *)
Definition assign (lo hi : nat) (src l : list A) : list A :=
  imap (λ i x, if bool_decide (lo ≤ i < hi)%nat
               then default x (src !! (i - lo)%nat) else x) l.

(** [l[lo:hi] = v] with a scalar [v] broadcast over the slice. *)
Definition assign_scalar (lo hi : nat) (v : A) (l : list A) : list A :=
  imap (λ i x, if bool_decide (lo ≤ i < hi)%nat then v else x) l.
End slices.

(** [g[r0:r1, c0:c1]] *)
Definition slice2 (r0 r1 c0 c1 : nat) (g : grid) : grid :=
  map (slice c0 c1) (slice r0 r1 g).

(** [g[r0:r1, c0:c1] = blk], in place. *)
Definition assign2 (r0 r1 c0 c1 : nat) (blk g : grid) : grid :=
  imap (λ r row, if bool_decide (r0 ≤ r < r1)%nat
                 then assign c0 c1 (default [] (blk !! (r - r0)%nat)) row
                 else row) g.

(** [g[r, c0:c1] = v] *)
Definition assign_row_scalar (r c0 c1 : nat) (v : Q) (g : grid) : grid :=
  alter (assign_scalar c0 c1 v) r g.

(** [g[r, c] = v] *)
Definition set_cell (r c : nat) (v : Q) (g : grid) : grid :=
  alter (<[c := v]>) r g.

(** Elementwise arithmetic of numpy on arrays of equal shape. *)
Definition add2 (a b : grid) : grid := zip_with (zip_with Qplus) a b.
Definition sub2 (a b : grid) : grid := zip_with (zip_with Qminus) a b.
Definition scale (k : Q) (a : grid) : grid := map (map (Qmult k)) a.
Definition over (a : grid) (d : Q) : grid := map (map (λ x, x / d)) a.

(** The shape of an array, as numpy compares it in an assignment. *)
Definition shape (g : grid) : list nat := map length g.

(** ** The loop body, on array values *)

(** Lines 99-100: [u0[2:m+1,25:75] = u0[1:m,25:75]] and then
    [u0[1,25:75] = Tslab].  numpy evaluates the right-hand side to a block
    of its own before it writes, and raises [ValueError] when the block
    does not have the shape of the target.  (A block of one row would be
    broadcast; on an [(nx, ny)] array the block has one row only when the
    target has one too, at [m = 2].) *)
Definition sink (m : nat) (u0 : grid) : option grid :=
  let blk := slice2 1 m 25 75 u0 in
  if decide (shape (slice2 2 (m + 1) 25 75 u0) = shape blk)
  then Some (assign_row_scalar 1 25 75 Tslab (assign2 2 (m + 1) 25 75 blk u0))
  else None.

(** Lines 69-71: the right-hand side of the stencil assignment. The
    negative bounds [-1] and [-2] count from the end of an axis of a
    [(nx, ny)] array. *)
Definition laplacian (u0 : grid) : grid :=
  let mid := slice2 1 (nx - 1) 1 (ny - 1) u0 in
  add2 mid
    (scale (K * dt)
       (add2
          (over (add2 (sub2 (slice2 2 nx 1 (ny - 1) u0) (scale 2 mid))
                      (slice2 0 (nx - 2) 1 (ny - 1) u0)) dx2)
          (over (add2 (sub2 (slice2 1 (nx - 1) 2 ny u0) (scale 2 mid))
                      (slice2 1 (nx - 1) 0 (ny - 2) u0)) dy2))).

(** [u[1:-1, 1:-1] = ...].  On two arrays of shape [(nx, ny)], the only
    ones the script creates, the block has the shape of the target.  On
    arrays of other shapes numpy raises [ValueError], which [assign2]
    does not do: this definition is meant for [shaped] arrays only, and
    every fact below about it assumes them. *)
Definition stencil (u0 u : grid) : grid :=
  assign2 1 (nx - 1) 1 (ny - 1) (laplacian u0) u.

(** Lines 74-81: the body of the two nested [for] loops. *)
Definition bc_body (i j : nat) (u : grid) : grid :=
  let u := if (i =? 0)%nat || (i =? nx - 1)%nat
           then set_cell j i Tmantle u else u in
  let u := if (j =? ny - 1)%nat then set_cell j i Tmantle u else u in
  if ((j =? 0)%nat && (i <? 25)%nat) || ((j =? 0)%nat && (75 <? i)%nat)
  then set_cell j i Tmantle u else u.

(** The two loops.  On an array of shape [(nx, ny)] every index [u[j,i]]
    is in range; on a smaller array numpy raises [IndexError], which
    [set_cell] does not do: as [stencil], this definition is meant for
    [shaped] arrays only. *)
Definition boundary (u : grid) : grid :=
  foldl (λ u i, foldl (λ u j, bc_body i j u) u (seq 0 ny)) u (seq 0 nx).

(** The cells [u[r,c]] that the boundary loop assigns: the test of the
    three [if] statements at [j = r], [i = c]. *)
Definition pinned (r c : nat) : bool :=
  (c =? 0)%nat || (c =? nx - 1)%nat || (r =? ny - 1)%nat
  || ((r =? 0)%nat && (c <? 25)%nat) || ((r =? 0)%nat && (75 <? c)%nat).

(** The array that [diffuser(u0, u)] leaves in [u]. *)
Definition diffuse (u0 u : grid) : grid := boundary (stencil u0 u).

(** The explicit five-point update as the specification writes it, for
    comparison with [laplacian]. *)
Definition five_point (prev : grid) (i j : nat) : Q :=
  cell prev i j
  + K * dt * ((cell prev (i + 1) j - 2 * cell prev i j + cell prev (i - 1) j) / dx2
              + (cell prev i (j + 1) - 2 * cell prev i j + cell prev i (j - 1)) / dy2).

(** The update of one cell in binary64, with the script's constants:
    [p] is the cell, [n] and [s] its neighbours in the rows above and
    below, [w] and [e] those in the columns before and after. *)
Module Binary64.
Definition K : float := 8.7e7%float.
Definition dx2 : float := (1 * 1)%float.
Definition dy2 : float := (1 * 1)%float.
Definition dt : float := (dx2 * dy2 / (2 * K * (dx2 + dy2)))%float.
Definition update (p n s w e : float) : float :=
  (p + K * dt * ((s - 2 * p + n) / dx2 + (e - 2 * p + w) / dy2))%float.
End Binary64.

(** ** Array objects and the names bound to them *)

Definition loc : Type := positive.

(** The store of array objects, the objects that the module-level names
    [u0] and [u] are bound to, and the images handed to [imshow], each
    with the number put in its title. *)
Record state : Type := State {
  heap : gmap loc grid;
  at_u0 : loc;
  at_u : loc;
  shown : list (nat * loc)
}.

Definition with_heap (hp : gmap loc grid) (s : state) : state :=
  State hp (at_u0 s) (at_u s) (shown s).

(** Computations on the state that may raise. *)
Definition M (A : Type) : Type := state → option (A * state).

#[export] Instance M_ret : MRet M := λ A x s, Some (x, s).
#[export] Instance M_bind : MBind M := λ A B f c s,
  match c s with
  | Some (x, s') => f x s'
  | None => None
  end.

Definition load (l : loc) : M grid := λ s,
  g ← heap s !! l; Some (g, s).

(** An in-place assignment to the object at [l]. *)
Definition mutate (l : loc) (f : grid → option grid) : M () := λ s,
  g ← heap s !! l; g' ← f g; Some ((), with_heap (<[l := g']> (heap s)) s).

(** [a.copy()]: a new object with the contents of [a]. *)
Definition np_copy (l : loc) : M loc := λ s,
  g ← heap s !! l;
  let l' := fresh (dom (heap s)) in
  Some (l', with_heap (<[l' := g]> (heap s)) s).

Definition name_u0 : M loc := λ s, Some (at_u0 s, s).
Definition name_u : M loc := λ s, Some (at_u s, s).

(** [u0, u = a, b] *)
Definition rebind (a b : loc) : M () := λ s,
  Some ((), State (heap s) a b (shown s)).

(** [ax.imshow(img, ...)] with [ax.set_title(str(m*10) + ' ka')]: the
    renderer keeps the object it is given. *)
Definition imshow (m : nat) (img : loc) : M () := λ s,
  Some ((), State (heap s) (at_u0 s) (at_u s) (shown s ++ [((m * 10)%nat, img)])).

(** ** The script *)

(** Lines 66-84. The arguments are the objects the caller passes; the
    function writes into the second one and returns a copy of it together
    with the object itself. *)
Definition diffuser (a b : loc) : M (loc * loc) :=
  prev ← load a;
  mutate b (λ u, Some (stencil prev u));;
  mutate b (λ u, Some (boundary u));;
  c ← np_copy b;
  mret (c, b).

(** Line 109: the copy of the current grid that is given to the renderer. *)
Definition snapshot : M loc :=
  b ← name_u; np_copy b.

(** Lines 96-112: one iteration of the loop. *)
Definition iteration (m : nat) : M () :=
  a ← name_u0;
  mutate a (sink m);;
  a ← name_u0;
  b ← name_u;
  r ← diffuser a b;
  rebind r.1 r.2;;
  if bool_decide (m ∈ mfig)
  then img ← snapshot; imshow m img
  else mret ().

(** [for m in ms: ...] *)
Fixpoint loop (ms : list nat) : M () :=
  match ms with
  | [] => mret ()
  | m :: ms => iteration m;; loop ms
  end.

(** Lines 59-63: the state when the loop is entered. [junk] is what
    [np.empty] found in the memory it returned. *)
Definition init_u0 : grid := assign_row_scalar 1 25 75 Tslab (full Tmantle).

Definition init (junk : grid) : state :=
  State (<[2%positive := junk]> {[1%positive := init_u0]}) 1%positive 2%positive [].

(** The state after the first [n] iterations of [for m in range(nsteps)]. *)
Definition after (n : nat) (junk : grid) : option state :=
  snd <$> loop (seq 0 n) (init junk).

(** The arrays bound to [u0] and to [u] after [n] iterations. *)
Definition grid_after (n : nat) (junk : grid) : option grid :=
  s ← after n junk; heap s !! at_u0 s.

Definition buffer_after (n : nat) (junk : grid) : option grid :=
  s ← after n junk; heap s !! at_u s.

(** Memory that [np.empty] may hand out: fresh pages full of zeros, the
    block that held the result of line 59 in an earlier run of the
    interpreter, or the remains of any other doubles. *)
Definition zeros : grid := full 0.
Definition hot : grid := full Tmantle.
Definition stale : grid := full 5000.

(** An array whose rows differ, to tell the rows of an array apart:
    row [r] holds [r] in every column. *)
Definition ramp : grid :=
  map (λ r, replicate ny (inject_Z (Z.of_nat r))) (seq 0 nx).


(** Every cell of an [(nx, ny)] array satisfies [P]. *)
Definition all_cells (P : Q → Prop) (g : grid) : Prop :=
  ∀ r c, (r < nx)%nat → (c < ny)%nat → P (cell g r c).




(** The names [u0] and [u] are bound to two different live objects. *)
Definition live (s : state) : Prop :=
  is_Some (heap s !! at_u0 s) ∧ is_Some (heap s !! at_u s) ∧ at_u0 s ≠ at_u s.

(** The steps of [mfig] that the first [n] iterations have passed. *)
Definition figure_steps (n : nat) : list nat :=
  List.filter (λ m, m <? n)%nat mfig.

(** What the renderer holds after [n] iterations: one image for each
    passed step of [mfig], in order, titled ten times the step and holding
    the grid as it was after that step; the images are objects of their
    own, none of them bound to [u0] or [u]. *)
Definition images_ok (junk : grid) (n : nat) (s : state) : Prop :=
  Forall2 (λ m p, p.1 = (m * 10)%nat
                  ∧ is_Some (heap s !! p.2)
                  ∧ heap s !! p.2 = grid_after (S m) junk
                  ∧ p.2 ≠ at_u0 s ∧ p.2 ≠ at_u s)
    (figure_steps n) (shown s)
  ∧ NoDup (shown s).*2.

(** * Facts about the array operations *)

Section array_facts.
Implicit Types (g u blk : grid) (r c i j lo hi : nat) (v x : Q).

Lemma shaped_lookup_row g r :
  shaped g → (r < nx)%nat → ∃ row, g !! r = Some row ∧ length row = ny.
Proof.
  intros [Hl Hf] Hr.
  destruct (lookup_lt_is_Some_2 g r) as [row Hrow]; [lia|].
  exists row. split; [done|].
  by eapply (proj1 (Forall_lookup _ _) Hf).
Qed.

Lemma shaped_lookup2 g r c :
  shaped g → (r < nx)%nat → (c < ny)%nat → lookup2 g r c = Some (cell g r c).
Proof.
  intros Hg Hr Hc. destruct (shaped_lookup_row g r Hg Hr) as (row & Hrow & Hlen).
  destruct (lookup_lt_is_Some_2 row c) as [x Hx]; [lia|].
  unfold cell, lookup2. rewrite Hrow. simpl. by rewrite Hx.
Qed.

Lemma cell_eq g g' r c : lookup2 g r c = lookup2 g' r c → cell g r c = cell g' r c.
Proof. unfold cell. by intros ->. Qed.

(** Shapes of concrete arrays are checked by evaluation. *)
Lemma shaped_by_evaluation g : bool_decide (shaped g) = true → shaped g.
Proof. apply bool_decide_eq_true_1. Qed.

Lemma shaped_full v : shaped (full v).
Proof.
  split; [apply length_replicate|].
  apply Forall_replicate, length_replicate.
Qed.

(** *** Slices *)

Lemma lookup_slice {A} lo hi (l : list A) i :
  slice lo hi l !! i = if decide (lo + i < hi)%nat then l !! (lo + i)%nat else None.
Proof. unfold slice. by rewrite lookup_drop, lookup_take. Qed.

Lemma lookup2_slice2 r0 r1 c0 c1 g i j :
  lookup2 (slice2 r0 r1 c0 c1 g) i j =
    if decide ((r0 + i < r1)%nat ∧ (c0 + j < c1)%nat)
    then lookup2 g (r0 + i) (c0 + j) else None.
Proof.
  unfold lookup2, slice2. change (map ?f ?l) with (f <$> l).
  rewrite list_lookup_fmap, lookup_slice.
  destruct (decide (r0 + i < r1)%nat) as [Hr|Hr].
  - destruct (g !! (r0 + i)%nat) as [row|]; simpl.
    + rewrite lookup_slice. repeat case_decide; try done; lia.
    + by case_decide.
  - simpl. case_decide; [lia|done].
Qed.

Lemma length_slice {A} lo hi (l : list A) :
  length (slice lo hi l) = (min hi (length l) - lo)%nat.
Proof. unfold slice. by rewrite length_drop, length_take. Qed.

(** *** Assignments keep the shape *)

Lemma length_assign {A} lo hi (src l : list A) :
  length (assign lo hi src l) = length l.
Proof. apply length_imap. Qed.

Lemma length_assign_scalar {A} lo hi (a : A) (l : list A) :
  length (assign_scalar lo hi a l) = length l.
Proof. apply length_imap. Qed.

Lemma shaped_assign2 r0 r1 c0 c1 blk g :
  shaped g → shaped (assign2 r0 r1 c0 c1 blk g).
Proof.
  intros [Hl Hf]. split; [unfold assign2; by rewrite length_imap|].
  apply Forall_lookup. intros r row. unfold assign2.
  rewrite list_lookup_imap. intros Hrow.
  apply fmap_Some in Hrow as (row0 & Hrow0 & ->).
  pose proof (proj1 (Forall_lookup _ _) Hf _ _ Hrow0) as Hlen.
  case_bool_decide; [by rewrite length_assign|done].
Qed.

Lemma shaped_alter f r g :
  (∀ row, length (f row) = length row) → shaped g → shaped (alter f r g).
Proof.
  intros Hf [Hl Hall]. split; [by rewrite length_alter|].
  apply Forall_lookup. intros k row. rewrite list_lookup_alter.
  case_decide as Hk.
  - subst k. intros Hrow. apply fmap_Some in Hrow as (row0 & Hrow0 & ->).
    rewrite Hf. by eapply (proj1 (Forall_lookup _ _) Hall).
  - by apply (proj1 (Forall_lookup _ _) Hall).
Qed.

Lemma shaped_assign_row_scalar r c0 c1 v g :
  shaped g → shaped (assign_row_scalar r c0 c1 v g).
Proof. apply shaped_alter. intros. apply length_assign_scalar. Qed.

Lemma shaped_set_cell r c v g : shaped g → shaped (set_cell r c v g).
Proof. apply shaped_alter. intros. apply length_insert. Qed.

(** *** Reading after an assignment *)

Lemma lookup2_assign2 r0 r1 c0 c1 blk g r c :
  lookup2 (assign2 r0 r1 c0 c1 blk g) r c =
    (λ x, if bool_decide ((r0 ≤ r < r1)%nat ∧ (c0 ≤ c < c1)%nat)
          then default x (lookup2 blk (r - r0) (c - c0)) else x)
    <$> lookup2 g r c.
Proof.
  unfold lookup2 at 1 3, assign2. rewrite list_lookup_imap.
  destruct (g !! r) as [row|]; simpl; [|done].
  case_bool_decide as Hr.
  - unfold assign. rewrite list_lookup_imap.
    destruct (row !! c) as [x|]; simpl; [|done].
    unfold lookup2. destruct (blk !! (r - r0)%nat) as [src|]; simpl.
    + repeat case_bool_decide; try done; tauto.
    + repeat case_bool_decide; try done; tauto.
  - destruct (row !! c) as [x|]; simpl; [|done].
    case_bool_decide; [tauto|done].
Qed.

Lemma lookup2_assign_row_scalar r0 c0 c1 v g r c :
  lookup2 (assign_row_scalar r0 c0 c1 v g) r c =
    (λ x, if bool_decide (r = r0 ∧ (c0 ≤ c < c1)%nat) then v else x)
    <$> lookup2 g r c.
Proof.
  unfold lookup2, assign_row_scalar. rewrite list_lookup_alter.
  case_decide as Hr.
  - subst r0. destruct (g !! r) as [row|]; simpl; [|done].
    unfold assign_scalar. rewrite list_lookup_imap.
    destruct (row !! c) as [x|]; simpl; [|done].
    repeat case_bool_decide; try done; tauto.
  - destruct (g !! r) as [row|]; simpl; [|done].
    destruct (row !! c) as [x|]; simpl; [|done].
    rewrite bool_decide_false; [done|]. intros [-> _]. done.
Qed.

Lemma lookup2_set_cell r0 c0 v g r c :
  lookup2 (set_cell r0 c0 v g) r c =
    (λ x, if bool_decide (r = r0 ∧ c = c0) then v else x) <$> lookup2 g r c.
Proof.
  unfold lookup2, set_cell. rewrite list_lookup_alter.
  case_decide as Hr.
  - subst r0. destruct (g !! r) as [row|]; simpl; [|done].
    rewrite list_lookup_insert. case_decide as Hc.
    + destruct Hc as [-> Hlt].
      destruct (lookup_lt_is_Some_2 row c Hlt) as [x ->]. simpl.
      by rewrite bool_decide_true.
    + destruct (row !! c) as [x|] eqn:Hx; simpl; [|done].
      rewrite bool_decide_false; [done|].
      intros [_ ->]. apply Hc. split; [done|].
      apply lookup_lt_is_Some_1. by rewrite Hx.
  - destruct (g !! r) as [row|]; simpl; [|done].
    destruct (row !! c) as [x|]; simpl; [|done].
    rewrite bool_decide_false; [done|]. intros [-> _]. done.
Qed.

(** *** Elementwise arithmetic *)

Lemma lookup2_zip2 (f : Q → Q → Q) (a b : grid) i j :
  lookup2 (zip_with (zip_with f) a b) i j =
    x ← lookup2 a i j; y ← lookup2 b i j; Some (f x y).
Proof.
  unfold lookup2. rewrite lookup_zip_with.
  destruct (a !! i) as [ra|]; simpl; [|done].
  destruct (b !! i) as [rb|]; simpl.
  - rewrite lookup_zip_with. by destruct (ra !! j).
  - by destruct (ra !! j).
Qed.

Lemma lookup2_map2 (f : Q → Q) (a : grid) i j :
  lookup2 (map (map f) a) i j = f <$> lookup2 a i j.
Proof.
  unfold lookup2. change (map (map f) a) with (fmap (M:=list) (fmap (M:=list) f) a).
  rewrite list_lookup_fmap. destruct (a !! i) as [ra|]; simpl; [|done].
  apply list_lookup_fmap.
Qed.

(** *** The stencil *)

Lemma lookup2_zip2_Some (f : Q → Q → Q) (a b : grid) i j x y :
  lookup2 a i j = Some x → lookup2 b i j = Some y →
  lookup2 (zip_with (zip_with f) a b) i j = Some (f x y).
Proof. intros Ha Hb. by rewrite lookup2_zip2, Ha, Hb. Qed.

Lemma lookup2_map2_Some (f : Q → Q) (a : grid) i j x :
  lookup2 a i j = Some x → lookup2 (map (map f) a) i j = Some (f x).
Proof. intros Ha. by rewrite lookup2_map2, Ha. Qed.

Lemma lookup2_slice2_Some r0 r1 c0 c1 g i j :
  shaped g → (r0 + i < r1)%nat → (c0 + j < c1)%nat →
  (r1 ≤ nx)%nat → (c1 ≤ ny)%nat →
  lookup2 (slice2 r0 r1 c0 c1 g) i j = Some (cell g (r0 + i) (c0 + j)).
Proof.
  intros Hg Hr Hc Hr1 Hc1. rewrite lookup2_slice2, decide_True by done.
  apply shaped_lookup2; [done|lia..].
Qed.

Lemma lookup2_laplacian (prev : grid) i j :
  shaped prev → (i < nx - 2)%nat → (j < ny - 2)%nat →
  lookup2 (laplacian prev) i j = Some (five_point prev (S i) (S j)).
Proof.
  intros Hs Hi Hj. unfold nx, ny in Hi, Hj.
  unfold five_point.
  replace (S i + 1)%nat with (2 + i)%nat by lia.
  replace (S j + 1)%nat with (2 + j)%nat by lia.
  replace (S i - 1)%nat with (0 + i)%nat by lia.
  replace (S j - 1)%nat with (0 + j)%nat by lia.
  change (S i) with (1 + i)%nat. change (S j) with (1 + j)%nat.
  unfold laplacian, add2, sub2, scale, over.
  apply (lookup2_zip2_Some Qplus);
    [|apply (lookup2_map2_Some (Qmult (K * dt))), (lookup2_zip2_Some Qplus);
      [apply (lookup2_map2_Some (λ x, x / dx2))
      |apply (lookup2_map2_Some (λ x, x / dy2))];
      (apply (lookup2_zip2_Some Qplus);
       [apply (lookup2_zip2_Some Qminus);
        [|apply (lookup2_map2_Some (Qmult 2))]|])];
    apply lookup2_slice2_Some; (done || unfold nx, ny; lia).
Qed.

Lemma shaped_stencil (prev u : grid) : shaped u → shaped (stencil prev u).
Proof. apply shaped_assign2. Qed.

(** Interior cells receive the five-point update of [prev]; the outer
    ring keeps what [u] held. *)
Lemma cell_stencil (prev u : grid) r c :
  shaped prev → shaped u → (r < nx)%nat → (c < ny)%nat →
  cell (stencil prev u) r c =
    if bool_decide ((1 ≤ r ≤ nx - 2)%nat ∧ (1 ≤ c ≤ ny - 2)%nat)
    then five_point prev r c else cell u r c.
Proof.
  intros Hp Hu Hr Hc. unfold cell at 1, stencil.
  rewrite lookup2_assign2, (shaped_lookup2 u) by done. simpl.
  unfold nx, ny in *.
  case_bool_decide as H1; case_bool_decide as H2; try done; try lia.
  rewrite lookup2_laplacian by (done || unfold nx, ny; lia). simpl.
  by replace (S (r - 1)) with r by lia; replace (S (c - 1)) with c by lia.
Qed.

(** *** The boundary loop *)

Lemma lookup2_bc_body i j u r c :
  lookup2 (bc_body i j u) r c =
    (λ x, if bool_decide (r = j ∧ c = i) && pinned r c then Tmantle else x)
    <$> lookup2 u r c.
Proof.
  unfold bc_body, pinned.
  destruct (bool_decide_reflect (r = j ∧ c = i)) as [[-> ->]|Hne].
  - repeat match goal with
           | |- context [if ?b then set_cell _ _ _ _ else _] => destruct b eqn:?
           end;
      rewrite ?lookup2_set_cell; destruct (lookup2 u j i) as [x|]; simpl;
      rewrite ?bool_decide_true by done; try done;
      repeat match goal with
             | H : _ || _ = _ |- _ => rewrite H
             | H : (_ =? _)%nat = _ |- _ => rewrite H
             end; simpl; try done.
    all: repeat match goal with
             | H : _ || _ = false |- _ => apply orb_false_iff in H as [? ?]
             end.
    all: repeat match goal with
             | H : _ = false |- _ => rewrite H
             end; done.
  - repeat match goal with
           | |- context [if ?b then set_cell _ _ _ _ else _] => destruct b
           end;
      rewrite ?lookup2_set_cell; destruct (lookup2 u r c) as [x|]; simpl;
      rewrite ?bool_decide_false by done; done.
Qed.

Lemma shaped_bc_body i j u : shaped u → shaped (bc_body i j u).
Proof.
  intros Hu. unfold bc_body.
  repeat match goal with
         | |- context [if ?b then set_cell _ _ _ _ else _] => destruct b
         end; auto using shaped_set_cell.
Qed.

Lemma lookup2_bc_inner i jl u r c :
  lookup2 (foldl (λ u j, bc_body i j u) u jl) r c =
    (λ x, if bool_decide (r ∈ jl ∧ c = i) && pinned r c then Tmantle else x)
    <$> lookup2 u r c.
Proof.
  revert u. induction jl as [|j jl IH]; intros u; cbn [foldl].
  - rewrite bool_decide_false by (rewrite elem_of_nil; tauto).
    by destruct (lookup2 u r c).
  - rewrite IH, lookup2_bc_body. destruct (lookup2 u r c) as [x|]; simpl; [|done].
    f_equal. destruct (pinned r c); rewrite ?andb_false_r, ?andb_true_r; [|done].
    repeat case_bool_decide; try done; exfalso;
      set_unfold; intuition congruence.
Qed.

Lemma shaped_bc_inner i jl u :
  shaped u → shaped (foldl (λ u j, bc_body i j u) u jl).
Proof.
  revert u. induction jl as [|j jl IH]; intros u Hu; cbn [foldl]; [done|].
  apply IH, shaped_bc_body, Hu.
Qed.

Lemma lookup2_bc_outer il jl u r c :
  lookup2 (foldl (λ u i, foldl (λ u j, bc_body i j u) u jl) u il) r c =
    (λ x, if bool_decide (r ∈ jl ∧ c ∈ il) && pinned r c then Tmantle else x)
    <$> lookup2 u r c.
Proof.
  revert u. induction il as [|i il IH]; intros u; cbn [foldl].
  - rewrite bool_decide_false by (rewrite elem_of_nil; tauto).
    by destruct (lookup2 u r c).
  - rewrite IH, lookup2_bc_inner. destruct (lookup2 u r c) as [x|]; simpl; [|done].
    f_equal. destruct (pinned r c); rewrite ?andb_false_r, ?andb_true_r; [|done].
    repeat case_bool_decide; try done; exfalso;
      set_unfold; intuition congruence.
Qed.

Lemma shaped_boundary u : shaped u → shaped (boundary u).
Proof.
  unfold boundary. generalize (seq 0 nx) (seq 0 ny). intros il jl. revert u.
  induction il as [|i il IH]; intros u Hu; cbn [foldl]; [done|].
  apply IH, shaped_bc_inner, Hu.
Qed.

(** The loop pins exactly the cells selected by [pinned] to [Tmantle]
    and leaves every other cell as it was. *)
Lemma cell_boundary u r c :
  shaped u → (r < nx)%nat → (c < ny)%nat →
  cell (boundary u) r c = if pinned r c then Tmantle else cell u r c.
Proof.
  intros Hu Hr Hc. unfold cell at 1, boundary. rewrite lookup2_bc_outer.
  rewrite bool_decide_true.
  2:{ split; apply elem_of_seq; unfold nx, ny in *; lia. }
  rewrite (shaped_lookup2 u) by done. simpl. by destruct (pinned r c).
Qed.

Lemma diffuse_unfold (prev u : grid) : diffuse prev u = boundary (stencil prev u).
Proof. reflexivity. Qed.

Lemma shaped_diffuse (prev u : grid) : shaped u → shaped (diffuse prev u).
Proof. intros Hu. rewrite diffuse_unfold. apply shaped_boundary, shaped_stencil, Hu. Qed.

(** What [diffuser] leaves in each cell of [u]. *)
Lemma cell_diffuse (prev u : grid) r c :
  shaped prev → shaped u → (r < nx)%nat → (c < ny)%nat →
  cell (diffuse prev u) r c =
    if pinned r c then Tmantle
    else if bool_decide ((1 ≤ r ≤ nx - 2)%nat ∧ (1 ≤ c ≤ ny - 2)%nat)
         then five_point prev r c
         else cell u r c.
Proof.
  intros Hp Hu Hr Hc. rewrite diffuse_unfold.
  rewrite cell_boundary; [|apply shaped_stencil, Hu|exact Hr|exact Hc].
  rewrite cell_stencil; [reflexivity|exact Hp|exact Hu|exact Hr|exact Hc].
Qed.

(** *** The slab shift *)

Lemma shape_slice2 r0 r1 c0 c1 g :
  shaped g → (r1 ≤ nx)%nat → (c1 ≤ ny)%nat →
  shape (slice2 r0 r1 c0 c1 g) = replicate (r1 - r0) (c1 - c0)%nat.
Proof.
  intros Hg Hr Hc. apply list_eq. intros i. unfold shape, slice2.
  change (map ?f ?l) with (f <$> l). rewrite !list_lookup_fmap, lookup_slice.
  case_decide as Hi.
  - destruct (shaped_lookup_row g (r0 + i) Hg) as (row & -> & Hlen); [lia|].
    simpl. rewrite length_slice, Hlen, lookup_replicate_2 by lia.
    f_equal. lia.
  - symmetry. simpl. apply lookup_replicate_None. lia.
Qed.

(** For every [m] of [range(nsteps)] the block has the shape of its
    target, so the assignment of line 99 does not raise. *)
Lemma sink_Some m g :
  shaped g → (m < nsteps)%nat →
  sink m g = Some (assign_row_scalar 1 25 75 Tslab
                     (assign2 2 (m + 1) 25 75 (slice2 1 m 25 75 g) g)).
Proof.
  intros Hg Hm. unfold sink, nsteps in *.
  rewrite decide_True; [done|].
  rewrite !shape_slice2 by (done || unfold nx, ny; lia).
  f_equal. lia.
Qed.

(** One more iteration would raise: [u0[2:101,25:75]] has 98 rows and
    [u0[1:100,25:75]] has 99. *)
Lemma sink_raises g : shaped g → sink nsteps g = None.
Proof.
  intros Hg. unfold sink. rewrite decide_False; [done|].
  destruct Hg as [Hl Hf]. intros Heq.
  apply (f_equal length) in Heq. revert Heq. unfold shape, slice2.
  rewrite !length_map, !length_slice, Hl.
  unfold nsteps, nx. simpl. lia.
Qed.

Lemma shaped_sink m g a : shaped g → sink m g = Some a → shaped a.
Proof.
  intros Hg. unfold sink. case_decide; [|done]. intros [= <-].
  by apply shaped_assign_row_scalar, shaped_assign2.
Qed.

(** Inside the slab's columns, row 1 becomes [Tslab] and each row
    [2..m] receives what the row above it held before the assignment;
    every other cell is left alone. *)
Lemma cell_sink m g a r c :
  shaped g → sink m g = Some a → (r < nx)%nat → (c < ny)%nat →
  cell a r c =
    if bool_decide (r = 1%nat ∧ (25 ≤ c < 75)%nat) then Tslab
    else if bool_decide ((2 ≤ r ≤ m)%nat ∧ (25 ≤ c < 75)%nat)
         then cell g (r - 1) c
         else cell g r c.
Proof.
  intros Hg Ha Hr Hc. unfold sink in Ha. case_decide; [|done].
  injection Ha as <-. unfold cell at 1.
  rewrite lookup2_assign_row_scalar, lookup2_assign2.
  rewrite (shaped_lookup2 g r c) by done. simpl.
  destruct (bool_decide_reflect (r = 1%nat ∧ (25 ≤ c < 75)%nat)) as [|Hne1]; [done|].
  destruct (bool_decide_reflect ((2 ≤ r ≤ m)%nat ∧ (25 ≤ c < 75)%nat)) as [Hin|Hout].
  - rewrite bool_decide_true by lia.
    rewrite lookup2_slice2, decide_True by lia.
    rewrite (shaped_lookup2 g) by (done || unfold ny; lia). simpl.
    f_equal; lia.
  - by rewrite bool_decide_false by lia.
Qed.
(** *** Arrays of one shape with the same cells are the same array *)

Lemma grid_ext (g g' : grid) :
  shaped g → shaped g' →
  (∀ r c, (r < nx)%nat → (c < ny)%nat → cell g r c = cell g' r c) → g = g'.
Proof.
  intros Sg Sg' H. apply list_eq. intros r.
  destruct (decide (r < nx)%nat) as [Hr|Hr].
  - destruct (shaped_lookup_row g r Sg Hr) as (row & Hrow & Hlen).
    destruct (shaped_lookup_row g' r Sg' Hr) as (row' & Hrow' & Hlen').
    rewrite Hrow, Hrow'. f_equal. apply list_eq. intros c.
    destruct (decide (c < ny)%nat) as [Hc|Hc].
    + pose proof (shaped_lookup2 g r c Sg Hr Hc) as E.
      pose proof (shaped_lookup2 g' r c Sg' Hr Hc) as E'.
      unfold lookup2 in E, E'. rewrite Hrow in E. rewrite Hrow' in E'.
      cbn [mbind option_bind] in E, E'. rewrite E, E'. f_equal. by apply H.
    + rewrite !lookup_ge_None_2 by lia. reflexivity.
  - destruct Sg as [Lg _], Sg' as [Lg' _].
    rewrite !lookup_ge_None_2 by lia. reflexivity.
Qed.

(** From [m = nx] on, the target of line 99 is clipped to [nx - 2] rows
    while the block still has [nx - 1]. *)
Lemma sink_raises_beyond m g : shaped g → (nx ≤ m)%nat → sink m g = None.
Proof.
  intros Hg Hm. unfold sink. rewrite decide_False; [reflexivity|].
  destruct Hg as [Hl Hf]. intros Heq.
  apply (f_equal length) in Heq. revert Heq. unfold shape, slice2.
  rewrite !length_map, !length_slice, Hl. unfold nx in *. lia.
Qed.
End array_facts.

(** From here on the array operations are used through the lemmas above. *)
#[global] Opaque boundary laplacian stencil diffuse sink.

(** * Facts about the store *)

Section store_facts.
Implicit Types (s : state) (l a b : loc) (g : grid).

Lemma bind_run {A B} (c : M A) (f : A → M B) s :
  (c ≫= f) s = match c s with Some (x, s') => f x s' | None => None end.
Proof. done. Qed.

Lemma load_Some l g s : heap s !! l = Some g → load l s = Some (g, s).
Proof. unfold load. by intros ->. Qed.

Lemma mutate_Some l f g g' s :
  heap s !! l = Some g → f g = Some g' →
  mutate l f s = Some ((), with_heap (<[l := g']> (heap s)) s).
Proof. unfold mutate. intros -> Hf. simpl. by rewrite Hf. Qed.

Lemma np_copy_Some l g s :
  heap s !! l = Some g →
  np_copy l s = Some (fresh (dom (heap s)),
                      with_heap (<[fresh (dom (heap s)) := g]> (heap s)) s).
Proof. unfold np_copy. by intros ->. Qed.

Lemma fresh_lookup s : heap s !! fresh (dom (heap s)) = None.
Proof. apply not_elem_of_dom, is_fresh. Qed.

(** A copy is a new object: it is none of the objects of the store it
    was made in, it holds the contents of the original, and every
    object of that store is as before. *)
Lemma np_copy_spec l g s :
  heap s !! l = Some g →
  ∃ c s', np_copy l s = Some (c, s')
    ∧ heap s !! c = None
    ∧ heap s' !! c = Some g
    ∧ (∀ k, k ≠ c → heap s' !! k = heap s !! k)
    ∧ at_u0 s' = at_u0 s ∧ at_u s' = at_u s ∧ shown s' = shown s.
Proof.
  intros Hl. eexists _, _. split; [by apply np_copy_Some|].
  split; [apply fresh_lookup|]. simpl.
  split; [apply lookup_insert_eq|].
  split; [|done]. intros k Hk. by apply lookup_insert_ne.
Qed.

(** [diffuser(a, b)] reads the object [a], overwrites the object [b]
    and returns a copy of [b] along with [b] itself. *)
Lemma diffuser_spec a b g0 gb s :
  heap s !! a = Some g0 → heap s !! b = Some gb →
  ∃ c s', diffuser a b s = Some ((c, b), s')
    ∧ heap s !! c = None
    ∧ heap s' !! c = Some (diffuse g0 gb)
    ∧ heap s' !! b = Some (diffuse g0 gb)
    ∧ (∀ k, k ≠ b → k ≠ c → heap s' !! k = heap s !! k)
    ∧ at_u0 s' = at_u0 s ∧ at_u s' = at_u s ∧ shown s' = shown s.
Proof.
  intros Ha Hb. unfold diffuser.
  rewrite bind_run, (load_Some a g0 s Ha).
  rewrite bind_run, (mutate_Some b _ gb (stencil g0 gb) s Hb eq_refl).
  set (s1 := with_heap _ s).
  assert (heap s1 !! b = Some (stencil g0 gb)) as Hb1 by apply lookup_insert_eq.
  rewrite bind_run, (mutate_Some b _ _ (boundary (stencil g0 gb)) s1 Hb1 eq_refl).
  rewrite <- diffuse_unfold.
  set (s2 := with_heap _ s1).
  assert (heap s2 !! b = Some (diffuse g0 gb)) as Hb2 by apply lookup_insert_eq.
  destruct (np_copy_spec b _ s2 Hb2) as (c & s3 & Hrun & Hc & Hc3 & Hk & E1 & E2 & E3).
  rewrite bind_run, Hrun. exists c, s3. split; [reflexivity|].
  assert (c ≠ b) as Hcb by (intros ->; congruence).
  assert (∀ k, k ≠ b → heap s2 !! k = heap s !! k) as Hs2.
  { intros k Hkb. subst s2 s1. cbn [heap with_heap].
    rewrite !lookup_insert_ne by congruence. reflexivity. }
  split; [rewrite <- (Hs2 c Hcb); exact Hc|].
  split; [exact Hc3|].
  split; [rewrite (Hk b) by congruence; exact Hb2|].
  split; [intros k Hkb Hkc; rewrite Hk, Hs2 by assumption; reflexivity|].
  rewrite E1, E2, E3. repeat split; reflexivity.
Qed.

(** [snapshot] is [np_copy] of the object bound to [u]. *)
Lemma snapshot_run s : snapshot s = np_copy (at_u s) s.
Proof. done. Qed.

(** One iteration: the object of [u0] is shifted in place, the object
    of [u] is overwritten with the diffused array, [u0] is rebound to a
    new copy of it, and at the steps of [mfig] one more copy goes to the
    renderer. Objects that neither name is bound to are not touched. *)
Lemma iteration_spec m s (g b a : grid) :
  heap s !! at_u0 s = Some g → heap s !! at_u s = Some b →
  at_u0 s ≠ at_u s → sink m g = Some a →
  ∃ s', iteration m s = Some ((), s')
    ∧ heap s' !! at_u0 s' = Some (diffuse a b)
    ∧ heap s' !! at_u s' = Some (diffuse a b)
    ∧ at_u s' = at_u s
    ∧ heap s !! at_u0 s' = None
    ∧ (∀ k, is_Some (heap s !! k) → k ≠ at_u0 s → k ≠ at_u s →
            heap s' !! k = heap s !! k)
    ∧ (if bool_decide (m ∈ mfig)
       then ∃ img, shown s' = shown s ++ [((m * 10)%nat, img)]
              ∧ heap s !! img = None ∧ img ≠ at_u0 s'
              ∧ heap s' !! img = Some (diffuse a b)
       else shown s' = shown s).
Proof.
  intros Hg Hb Hne Ha. unfold iteration.
  rewrite bind_run. unfold name_u0 at 1.
  rewrite bind_run, (mutate_Some _ _ g a) by done.
  set (s1 := with_heap _ s).
  rewrite bind_run. unfold name_u0 at 1. rewrite bind_run. unfold name_u at 1.
  assert (heap s1 !! at_u0 s1 = Some a) as Hg1 by apply lookup_insert_eq.
  assert (heap s1 !! at_u s1 = Some b) as Hb1.
  { subst s1. simpl. by rewrite lookup_insert_ne. }
  destruct (diffuser_spec _ _ _ _ s1 Hg1 Hb1)
    as (c & s2 & Hrun & Hc & Hc2 & Hb2 & Hk2 & E1 & E2 & E3).
  rewrite bind_run, Hrun, bind_run. clear Hrun.
  unfold rebind at 1. simpl fst. simpl snd.
  set (s3 := State (heap s2) c (at_u s1) (shown s2)).
  assert (heap s !! c = None) as Hcs.
  { subst s1. simpl in Hc. destruct (decide (c = at_u0 s)) as [->|Hc0].
    - by rewrite lookup_insert_eq in Hc.
    - by rewrite lookup_insert_ne in Hc. }
  assert (∀ k, is_Some (heap s !! k) → k ≠ at_u0 s → k ≠ at_u s →
               heap s2 !! k = heap s !! k) as Hold.
  { intros k [x Hx] Hk0 Hku. rewrite Hk2.
    - subst s1. simpl. by rewrite lookup_insert_ne.
    - done.
    - intros ->. congruence. }
  case_bool_decide as Hm.
  - rewrite bind_run, snapshot_run.
    assert (heap s3 !! at_u s3 = Some (diffuse a b)) as Hb3 by done.
    destruct (np_copy_spec _ _ s3 Hb3)
      as (img & s4 & Hrun4 & Himg & Himg4 & Hk4 & F1 & F2 & F3).
    change (np_copy _ _) with (np_copy (at_u s3) s3).
    rewrite Hrun4. clear Hrun4. unfold imshow. eexists. split; [reflexivity|]. simpl.
    assert (img ≠ c) as Hic by (intros ->; simpl in Himg; congruence).
    assert (heap s2 !! at_u s = Some (diffuse a b)) as Hb2' by exact Hb2.
    assert (img ≠ at_u s) as Hiu by (intros ->; simpl in Himg; congruence).
    rewrite F1, F2, F3. simpl.
    split; [by rewrite Hk4|].
    split; [by rewrite Hk4|].
    split; [done|].
    split; [done|].
    split.
    { intros k Hks Hk0 Hku. rewrite Hk4; [by apply Hold|].
      intros ->. simpl in Himg. rewrite Hold in Himg by done.
      destruct Hks as [x Hx]. congruence. }
    exists img. rewrite E3. split; [done|].
    split; [|done].
    simpl in Himg. destruct (decide (img = at_u0 s)) as [->|Hi0].
    + rewrite Hk2 in Himg by done. subst s1. simpl in Himg.
      by rewrite lookup_insert_eq in Himg.
    + rewrite Hk2 in Himg by done. subst s1. simpl in Himg.
      by rewrite lookup_insert_ne in Himg.
  - eexists. split; [reflexivity|]. simpl. by rewrite E3.
Qed.

Lemma iteration_raises m s g :
  heap s !! at_u0 s = Some g → sink m g = None → iteration m s = None.
Proof.
  intros Hg Ha. unfold iteration. rewrite bind_run. unfold name_u0 at 1.
  rewrite bind_run. unfold mutate. rewrite Hg. simpl. by rewrite Ha.
Qed.

Lemma loop_app ms ms' s :
  loop (ms ++ ms') s =
    match loop ms s with Some (_, s') => loop ms' s' | None => None end.
Proof.
  revert s. induction ms as [|m ms IH]; intros s; [done|].
  cbn [loop app]. rewrite !bind_run.
  destruct (iteration m s) as [[[] s1]|]; [apply IH|done].
Qed.

(** The run, one iteration at a time. *)
Lemma after_S n junk :
  after (S n) junk = s ← after n junk; snd <$> iteration n s.
Proof.
  unfold after. rewrite seq_S, loop_app. simpl.
  destruct (loop (seq 0 n) (init junk)) as [[[] s]|]; simpl; [|done].
  rewrite bind_run. by destruct (iteration n s) as [[[] s']|].
Qed.

Lemma live_init junk : live (init junk).
Proof. unfold live, init. simpl. split; [|split]; [by eexists..|done]. Qed.

Lemma live_after n junk s : after n junk = Some s → live s.
Proof.
  revert s. induction n as [|n IH]; intros s.
  - intros [= <-]. apply live_init.
  - rewrite after_S. destruct (after n junk) as [s0|]; [|done]. simpl.
    destruct (IH s0 eq_refl) as ([g Hg] & [b Hb] & Hne).
    destruct (sink n g) as [a|] eqn:Ha.
    + destruct (iteration_spec n s0 g b a Hg Hb Hne Ha)
        as (s' & -> & H0 & Hu & Eu & Hc & _). simpl. intros [= <-].
      split; [by eexists|]. split; [by eexists|].
      intros Heq. rewrite Heq, Eu in Hc. congruence.
    + by rewrite (iteration_raises n s0 g).
Qed.

Lemma grid_after_0 junk : grid_after 0 junk = Some init_u0.
Proof. done. Qed.

Lemma buffer_after_0 junk : buffer_after 0 junk = Some junk.
Proof. done. Qed.

(** The arrays behind [u0] and [u] after an iteration, from those
    before it. *)
Lemma arrays_after_S n junk :
  grid_after (S n) junk
    = (g ← grid_after n junk; b ← buffer_after n junk;
       a ← sink n g; Some (diffuse a b))
  ∧ buffer_after (S n) junk = grid_after (S n) junk.
Proof.
  unfold grid_after, buffer_after. rewrite after_S.
  destruct (after n junk) as [s|] eqn:Hs; [|done]. simpl.
  destruct (live_after _ _ _ Hs) as ([g Hg] & [b Hb] & Hne).
  rewrite Hg, Hb. simpl.
  destruct (sink n g) as [a|] eqn:Ha; simpl.
  - destruct (iteration_spec n s g b a Hg Hb Hne Ha)
      as (s' & -> & H0 & Hu & _). simpl. rewrite H0, Hu. split; reflexivity.
  - rewrite (iteration_raises n s g Hg Ha). split; reflexivity.
Qed.

Lemma after_0 junk : after 0 junk = Some (init junk).
Proof. reflexivity. Qed.

Lemma grid_after_unfold n junk :
  grid_after n junk = s ← after n junk; heap s !! at_u0 s.
Proof. reflexivity. Qed.

Lemma buffer_after_unfold n junk :
  buffer_after n junk = s ← after n junk; heap s !! at_u s.
Proof. reflexivity. Qed.
End store_facts.

(** The run is used through [grid_after_0], [buffer_after_0] and
    [arrays_after_S] below. *)
#[global] Opaque after grid_after buffer_after.

Section run_facts.
Implicit Types (g a b : grid).

(** *** The initial array *)

Lemma cell_full v r c : (r < nx)%nat → (c < ny)%nat → cell (full v) r c = v.
Proof.
  intros Hr Hc. unfold cell, lookup2, full.
  rewrite lookup_replicate_2; [|done].
  change (default 0 (replicate ny v !! c) = v).
  by rewrite lookup_replicate_2.
Qed.

Lemma shaped_init_u0 : shaped init_u0.
Proof. apply shaped_assign_row_scalar, shaped_full. Qed.

Lemma cell_init_u0 r c :
  (r < nx)%nat → (c < ny)%nat →
  cell init_u0 r c =
    if bool_decide (r = 1%nat ∧ (25 ≤ c < 75)%nat) then Tslab else Tmantle.
Proof.
  intros Hr Hc. unfold cell at 1, init_u0.
  rewrite lookup2_assign_row_scalar.
  rewrite (shaped_lookup2 (full Tmantle)) by auto using shaped_full.
  simpl. by rewrite cell_full.
Qed.

Lemma pinned_true r c :
  pinned r c = true ↔
    c = 0%nat ∨ c = (nx - 1)%nat ∨ r = (ny - 1)%nat
    ∨ (r = 0%nat ∧ ((c < 25)%nat ∨ (75 < c)%nat)).
Proof.
  unfold pinned.
  destruct (Nat.eqb_spec c 0), (Nat.eqb_spec c (nx - 1)),
    (Nat.eqb_spec r (ny - 1)), (Nat.eqb_spec r 0),
    (Nat.ltb_spec c 25), (Nat.ltb_spec 75 c); simpl;
    (split; intros Hp; [try discriminate Hp|try reflexivity];
     unfold nx, ny in *; lia).
Qed.

(** *** The top row under the slab *)

(** [diffuser] writes none of the cells [u[0,25..75]]. *)
Lemma cell_diffuse_top (prev u : grid) c :
  shaped prev → shaped u → (25 ≤ c ≤ 75)%nat →
  cell (stencil prev u) 0 c = cell u 0 c ∧ cell (diffuse prev u) 0 c = cell u 0 c.
Proof.
  intros Hp Hu Hc.
  assert (pinned 0 c = false) as Hpin.
  { apply not_true_is_false. rewrite pinned_true. unfold nx, ny. lia. }
  rewrite cell_diffuse, cell_stencil, Hpin by (done || unfold nx, ny; lia).
  by rewrite bool_decide_false by lia.
Qed.

(** Every iteration of [range(nsteps)] completes, both arrays keep the
    shape [(nx, ny)], after the first iteration [u0] and [u] hold equal
    arrays, and the cells [u[0,25..75]] still hold what [np.empty]
    found. *)
Lemma run_arrays n junk :
  shaped junk → (n ≤ nsteps)%nat →
  ∃ g b : grid, grid_after n junk = Some g ∧ buffer_after n junk = Some b
    ∧ shaped g ∧ shaped b
    ∧ (∀ c, (25 ≤ c ≤ 75)%nat → cell b 0 c = cell junk 0 c)
    ∧ ((1 ≤ n)%nat → b = g).
Proof.
  intros Hj. induction n as [|n IH]; intros Hn.
  - exists init_u0, junk. rewrite grid_after_0, buffer_after_0.
    split; [reflexivity|]. split; [reflexivity|].
    split; [apply shaped_init_u0|]. split; [exact Hj|].
    split; [reflexivity|lia].
  - destruct (IH ltac:(lia)) as (g & b & Hg & Hb & Sg & Sb & Hret & _).
    destruct (arrays_after_S n junk) as [E1 E2].
    rewrite Hg, Hb in E1. cbn [mbind option_bind] in E1.
    rewrite (sink_Some n g Sg) in E1 by lia. cbn [mbind option_bind] in E1.
    set (a := assign_row_scalar _ _ _ _ _) in E1.
    assert (shaped a) as Sa by apply shaped_assign_row_scalar, shaped_assign2, Sg.
    pose proof (shaped_diffuse a b Sb) as Sd.
    exists (diffuse a b), (diffuse a b).
    split; [exact E1|]. split; [rewrite E2; exact E1|].
    split; [exact Sd|]. split; [exact Sd|].
    split; [|reflexivity].
    intros c Hc. rewrite <- (Hret c Hc). by apply cell_diffuse_top.
Qed.
End run_facts.

(** * Invariants of the temperatures *)

(** In exact arithmetic [K * dt] is one quarter and the update is the
    mean of the four neighbours. *)
Lemma update_is_mean (p n s w e : Q) :
  p + K * dt * ((s - 2 * p + n) / dx2 + (e - 2 * p + w) / dy2)
  == (n + s + w + e) * (1 # 4).
Proof. unfold dt, K, dx2, dy2, dx, dy. field. Qed.

Section preserved.
(** A property of temperatures that [Tslab] and [Tmantle] have and that
    the update keeps. *)
Variable P : Q → Prop.
Hypothesis P_slab : P Tslab.
Hypothesis P_mantle : P Tmantle.
Hypothesis P_update : ∀ p n s w e, P p → P n → P s → P w → P e →
  P (p + K * dt * ((s - 2 * p + n) / dx2 + (e - 2 * p + w) / dy2)).

Lemma all_cells_init_u0 : all_cells P init_u0.
Proof.
  intros r c Hr Hc. rewrite cell_init_u0 by done. by case_bool_decide.
Qed.

Lemma all_cells_sink m (g a : grid) :
  shaped g → sink m g = Some a → all_cells P g → all_cells P a.
Proof.
  intros Sg Ha Hg r c Hr Hc. rewrite (cell_sink m g a r c Sg Ha Hr Hc).
  repeat case_bool_decide; [exact P_slab|apply Hg; lia|by apply Hg].
Qed.

Lemma all_cells_diffuse (a b : grid) :
  shaped a → shaped b → all_cells P a →
  (∀ c, (25 ≤ c ≤ 75)%nat → P (cell b 0 c)) →
  all_cells P (diffuse a b).
Proof.
  intros Sa Sb Ha Hb r c Hr Hc. rewrite (cell_diffuse a b r c Sa Sb Hr Hc).
  destruct (pinned r c) eqn:Hp; [exact P_mantle|].
  apply not_true_iff_false in Hp. rewrite pinned_true in Hp.
  case_bool_decide as Hin.
  - unfold five_point. apply P_update; apply Ha; unfold nx, ny in *; lia.
  - assert (r = 0%nat) as -> by (unfold nx, ny in *; lia).
    apply Hb. unfold nx, ny in *. lia.
Qed.

(** Such a property holds of every cell after every step, provided the
    cells of the buffer that are never written have it. *)
Lemma all_cells_run n (junk : grid) :
  shaped junk → (n ≤ nsteps)%nat →
  (∀ c, (25 ≤ c ≤ 75)%nat → P (cell junk 0 c)) →
  ∃ g : grid, grid_after n junk = Some g ∧ shaped g ∧ all_cells P g.
Proof.
  intros Hj Hn Hjunk. induction n as [|n IH].
  - exists init_u0. split; [apply grid_after_0|].
    split; [apply shaped_init_u0|apply all_cells_init_u0].
  - destruct (IH ltac:(lia)) as (g & Hg & _ & Pg).
    destruct (run_arrays n junk Hj ltac:(lia))
      as (g' & b & Hg' & Hb & Sg & Sb & Hret & _).
    rewrite Hg in Hg'. injection Hg' as <-.
    pose proof (sink_Some n g Sg ltac:(lia)) as Ha.
    set (a := assign_row_scalar _ _ _ _ _) in Ha.
    assert (shaped a) as Sa by apply shaped_assign_row_scalar, shaped_assign2, Sg.
    destruct (arrays_after_S n junk) as [E1 _].
    rewrite Hg, Hb in E1. cbn [mbind option_bind] in E1.
    rewrite Ha in E1. cbn [mbind option_bind] in E1.
    exists (diffuse a b). split; [exact E1|].
    split; [exact (shaped_diffuse a b Sb)|].
    apply all_cells_diffuse; [exact Sa|exact Sb| |].
    + exact (all_cells_sink n g a Sg Ha Pg).
    + intros c Hc. rewrite (Hret c Hc). by apply Hjunk.
Qed.
End preserved.

(** With the unwritten cells of the buffer within [Tslab, Tmantle], every
    temperature stays within [Tslab, Tmantle] throughout the run. *)
Lemma temperatures_bounded n (junk : grid) :
  shaped junk → (n ≤ nsteps)%nat →
  (∀ c, (25 ≤ c ≤ 75)%nat → Tslab <= cell junk 0 c <= Tmantle) →
  ∃ g : grid, grid_after n junk = Some g
    ∧ ∀ r c, (r < nx)%nat → (c < ny)%nat → Tslab <= cell g r c <= Tmantle.
Proof.
  intros Hj Hn Hjunk.
  assert (Tslab <= Tslab <= Tmantle) as H1 by (unfold Tslab, Tmantle; lra).
  assert (Tslab <= Tmantle <= Tmantle) as H2 by (unfold Tslab, Tmantle; lra).
  assert (∀ p nn s w e : Q,
            Tslab <= p <= Tmantle → Tslab <= nn <= Tmantle → Tslab <= s <= Tmantle →
            Tslab <= w <= Tmantle → Tslab <= e <= Tmantle →
            Tslab <= p + K * dt * ((s - 2 * p + nn) / dx2 + (e - 2 * p + w) / dy2)
            <= Tmantle) as H3.
  { intros p nn s w e Hp Hnn Hs Hw He. rewrite update_is_mean.
    unfold Tslab, Tmantle in *. lra. }
  destruct (all_cells_run (λ x, Tslab <= x <= Tmantle) H1 H2 H3 n junk Hj Hn Hjunk)
    as (g & Hg & _ & Pg).
  exists g. split; [exact Hg|exact Pg].
Qed.

(** * Rows at or below a threshold *)

Lemma forallb_seq (f : nat → bool) (lo len c : nat) :
  forallb f (seq lo len) = true → (lo ≤ c < lo + len)%nat → f c = true.
Proof.
  intros Hf Hc. apply (proj1 (forallb_forall f (seq lo len)) Hf).
  apply in_seq. lia.
Qed.





(** A cell that is at [Tmantle] together with its four neighbours stays
    at [Tmantle]; the same holds of the binary64 update
    ([binary64_second_step] below). *)
Lemma update_of_mantle (p n s w e : Q) :
  p == Tmantle → n == Tmantle → s == Tmantle → w == Tmantle → e == Tmantle →
  p + K * dt * ((s - 2 * p + n) / dx2 + (e - 2 * p + w) / dy2) == Tmantle.
Proof.
  intros Hp Hn Hs Hw He. rewrite update_is_mean, Hn, Hs, Hw, He.
  unfold Tmantle. reflexivity.
Qed.


(** * The first steps, by evaluation *)

(** In binary64 the product [K * dt] is exactly one quarter, and the
    updates of the first step are the exact ones: 975 under the slab in
    row 2, 650 inside the slab's row, 975 at its two ends and just
    outside them. *)
Lemma binary64_K_dt : (Binary64.K * Binary64.dt)%float = 0.25%float.
Proof. vm_compute. reflexivity. Qed.

Lemma binary64_first_step :
  (Binary64.update 1300 0 1300 1300 1300, Binary64.update 0 1300 1300 0 0,
   Binary64.update 0 1300 1300 1300 0, Binary64.update 1300 1300 1300 1300 0)
  = (975, 650, 975, 975)%float.
Proof. vm_compute. reflexivity. Qed.

(** So are the updates of the second step from a buffer at [Tmantle]
    (rows 1, 2 and 3 in and at the ends of the slab's columns), and the
    update of a cell whose neighbours are all at [Tmantle]. *)
Lemma binary64_second_step :
  (Binary64.update 0 1300 975 0 0, Binary64.update 0 1300 975 975 0,
   Binary64.update 975 0 1300 975 975, Binary64.update 975 0 1300 1300 975,
   Binary64.update 1300 975 1300 1300 1300, Binary64.update 1300 1300 1300 1300 1300)
  = (568.75, 812.5, 812.5, 893.75, 1218.75, 1300)%float.
Proof. vm_compute. reflexivity. Qed.

(** The first iteration shifts nothing: both slices of line 99 are empty,
    and row 1 already holds [Tslab]. *)
Lemma sink_0_init_u0 : sink 0 init_u0 = Some init_u0.
Proof. vm_compute. reflexivity. Qed.

Lemma grid_after_1 (junk : grid) : grid_after 1 junk = Some (diffuse init_u0 junk).
Proof.
  destruct (arrays_after_S 0 junk) as [E _].
  rewrite grid_after_0, buffer_after_0 in E. cbn [mbind option_bind] in E.
  rewrite sink_0_init_u0 in E. exact E.
Qed.

(** The interior of the grid after one step is the update of the initial
    array, whatever the buffer held. *)
Lemma first_step_interior (junk : grid) r c :
  shaped junk → (1 ≤ r ≤ nx - 2)%nat → (1 ≤ c ≤ ny - 2)%nat →
  cell (diffuse init_u0 junk) r c = five_point init_u0 r c.
Proof.
  intros Hj Hr Hc.
  assert (pinned r c = false) as Hpin.
  { apply not_true_is_false. rewrite pinned_true. unfold nx, ny in *. lia. }
  rewrite (cell_diffuse init_u0 junk r c shaped_init_u0 Hj)
    by (unfold nx, ny in *; lia).
  rewrite Hpin. by rewrite bool_decide_true by done.
Qed.

(** The update of the initial array in rows 1 and 2, column by column. *)
Lemma initial_update_row_2 :
  forallb (λ c, Qeq_bool (five_point init_u0 2 c) 975) (seq 25 50) = true.
Proof. vm_compute. reflexivity. Qed.

Lemma initial_update_row_1_inside :
  forallb (λ c, Qeq_bool (five_point init_u0 1 c) 650) (seq 26 48) = true.
Proof. vm_compute. reflexivity. Qed.

Lemma initial_update_row_1_edges :
  forallb (λ c, Qeq_bool (five_point init_u0 1 c) 975) [24; 25; 74; 75]%nat = true.
Proof. vm_compute. reflexivity. Qed.

Lemma initial_update_row_1_outside :
  forallb (λ c, Qeq_bool (five_point init_u0 1 c) Tmantle) (seq 1 23 ++ seq 76 23) = true.
Proof. vm_compute. reflexivity. Qed.

(** Rows 1 and 2 after one step: row 2 under the slab has cooled to 975,
    row 1 holds 650 well inside the slab's columns and 975 at columns 24,
    25, 74 and 75, and is still at [Tmantle] farther out. *)
Lemma first_step_rows (junk : grid) :
  shaped junk →
  (∀ c, (25 ≤ c ≤ 74)%nat → cell (diffuse init_u0 junk) 2 c == 975)
  ∧ (∀ c, (26 ≤ c ≤ 73)%nat → cell (diffuse init_u0 junk) 1 c == 650)
  ∧ (∀ c, (24 ≤ c ≤ 25)%nat ∨ (74 ≤ c ≤ 75)%nat →
          cell (diffuse init_u0 junk) 1 c == 975)
  ∧ (∀ c, (1 ≤ c ≤ 23)%nat ∨ (76 ≤ c ≤ 98)%nat →
          cell (diffuse init_u0 junk) 1 c == Tmantle).
Proof.
  intros Hj.
  split; [|split; [|split]]; intros c Hc;
    (rewrite (first_step_interior junk _ c Hj) by (unfold nx, ny; lia)).
  - apply Qeq_bool_iff.
    apply (forallb_seq (λ c, Qeq_bool (five_point init_u0 2 c) 975) 25 50 c
             initial_update_row_2). lia.
  - apply Qeq_bool_iff.
    apply (forallb_seq (λ c, Qeq_bool (five_point init_u0 1 c) 650) 26 48 c
             initial_update_row_1_inside). lia.
  - apply Qeq_bool_iff.
    apply (proj1 (forallb_forall (λ c, Qeq_bool (five_point init_u0 1 c) 975) _)
             initial_update_row_1_edges).
    cbn [In]. lia.
  - apply Qeq_bool_iff.
    apply (proj1 (forallb_forall (λ c, Qeq_bool (five_point init_u0 1 c) Tmantle) _)
             initial_update_row_1_outside).
    apply in_app_iff. rewrite !in_seq. lia.
Qed.

(** The top row outside columns 25..75 is pinned by the boundary loop. *)
Lemma top_row_outside_25_75 n (junk : grid) c :
  shaped junk → (n ≤ nsteps)%nat → (c < ny)%nat → (c < 25)%nat ∨ (75 < c)%nat →
  ∃ g : grid, grid_after n junk = Some g ∧ cell g 0 c = Tmantle.
Proof.
  intros Hj Hn Hc Hout. destruct n as [|n].
  - exists init_u0. split; [apply grid_after_0|].
    rewrite cell_init_u0 by (done || unfold nx; lia).
    by rewrite bool_decide_false by lia.
  - destruct (run_arrays n junk Hj ltac:(lia)) as (g & b & Hg & Hb & Sg & Sb & _).
    pose proof (sink_Some n g Sg ltac:(lia)) as Ha.
    set (a := assign_row_scalar _ _ _ _ _) in Ha.
    assert (shaped a) as Sa by apply shaped_assign_row_scalar, shaped_assign2, Sg.
    destruct (arrays_after_S n junk) as [E1 _].
    rewrite Hg, Hb in E1. cbn [mbind option_bind] in E1.
    rewrite Ha in E1. cbn [mbind option_bind] in E1.
    exists (diffuse a b). split; [exact E1|].
    rewrite (cell_diffuse a b 0 c Sa Sb) by (done || unfold nx; lia).
    assert (pinned 0 c = true) as -> by (apply pinned_true; lia).
    reflexivity.
Qed.

(** ** Rows at or below a threshold around the first step *)
















(** * The claims *)

(** C1. One call of [diffuser] gives every interior cell [(i,j)],
    [1 <= i <= nx-2] and [1 <= j <= ny-2], the explicit five-point update
    computed from the previous-state array alone: this is what the stencil
    assignment writes, before the boundary loop runs, and what the array
    holds when the call returns, both in [u] and in the returned copy. *)
Theorem diffuser_interior_update (a b : loc) (prev u : grid) (s : state) :
  heap s !! a = Some prev → heap s !! b = Some u → shaped prev → shaped u →
  ∃ (c : loc) (s' : state) (next : grid),
    diffuser a b s = Some ((c, b), s')
    ∧ heap s' !! b = Some next ∧ heap s' !! c = Some next
    ∧ ∀ i j, (1 ≤ i ≤ nx - 2)%nat → (1 ≤ j ≤ ny - 2)%nat →
        let update :=
          cell prev i j
          + K * dt * ((cell prev (i + 1) j - 2 * cell prev i j + cell prev (i - 1) j) / dx2
                      + (cell prev i (j + 1) - 2 * cell prev i j + cell prev i (j - 1)) / dy2)
        in cell (stencil prev u) i j = update ∧ cell next i j = update.
Proof.
  intros Ha Hb Sp Su.
  destruct (diffuser_spec a b prev u s Ha Hb) as (c & s' & Hrun & _ & Hc & Hb' & _).
  exists c, s', (diffuse prev u). split; [done|]. split; [done|]. split; [done|].
  intros i j Hi Hj update.
  assert (pinned i j = false) as Hpin.
  { apply not_true_is_false. rewrite pinned_true. unfold nx, ny in *. lia. }
  rewrite cell_diffuse, cell_stencil, Hpin by (done || unfold nx, ny in *; lia).
  by rewrite bool_decide_true by done.
Qed.

Lemma diffuser_interior_update_witness :
  heap (init zeros) !! 1%positive = Some init_u0
  ∧ heap (init zeros) !! 2%positive = Some zeros
  ∧ shaped init_u0 ∧ shaped zeros
  ∧ ∃ (c : loc) (s' : state) (next : grid),
      diffuser 1%positive 2%positive (init zeros) = Some ((c, 2%positive), s')
      ∧ heap s' !! 2%positive = Some next ∧ heap s' !! c = Some next
      ∧ ∀ i j, (1 ≤ i ≤ nx - 2)%nat → (1 ≤ j ≤ ny - 2)%nat →
          let update :=
            cell init_u0 i j
            + K * dt * ((cell init_u0 (i + 1) j - 2 * cell init_u0 i j
                         + cell init_u0 (i - 1) j) / dx2
                        + (cell init_u0 i (j + 1) - 2 * cell init_u0 i j
                           + cell init_u0 i (j - 1)) / dy2)
          in cell (stencil init_u0 zeros) i j = update ∧ cell next i j = update.
Proof.
  assert (heap (init zeros) !! 1%positive = Some init_u0) as H1 by reflexivity.
  assert (heap (init zeros) !! 2%positive = Some zeros) as H2 by reflexivity.
  assert (shaped init_u0) as H3 by (apply shaped_by_evaluation; vm_compute; reflexivity).
  assert (shaped zeros) as H4 by (apply shaped_by_evaluation; vm_compute; reflexivity).
  split; [exact H1|]. split; [exact H2|]. split; [exact H3|]. split; [exact H4|].
  exact (diffuser_interior_update 1%positive 2%positive init_u0 zeros (init zeros)
           H1 H2 H3 H4).
Defined.

(** C2. At every step [m] of the run the shift gives each row [r],
    [2 <= r <= m], in columns 25..74 the value that row [r-1] held before
    the shift (all rows at once), then row 1 of those columns is [Tslab];
    no cell outside rows [1..m] of columns 25..74 changes its value. *)
Theorem sink_shifts_slab_rows (junk : grid) (m : nat) :
  shaped junk → (m < nsteps)%nat →
  ∃ g a : grid,
    grid_after m junk = Some g ∧ sink m g = Some a
    ∧ ∀ r c, (r < nx)%nat → (c < ny)%nat →
        ((2 ≤ r ≤ m)%nat → (25 ≤ c ≤ 74)%nat → cell a r c = cell g (r - 1) c)
        ∧ ((25 ≤ c ≤ 74)%nat → cell a 1 c = Tslab)
        ∧ (¬ ((1 ≤ r ≤ m)%nat ∧ (25 ≤ c ≤ 74)%nat) → cell a r c = cell g r c).
Proof.
  intros Hj Hm.
  destruct (run_arrays m junk Hj ltac:(lia)) as (g & b & Hg & _ & Sg & _).
  pose proof (sink_Some m g Sg Hm) as Ha. set (a := assign_row_scalar _ _ _ _ _) in Ha.
  exists g, a. split; [exact Hg|]. split; [exact Ha|].
  intros r c Hr Hc. split; [|split].
  - intros Hrm Hcs. rewrite (cell_sink m g a r c Sg Ha Hr Hc).
    rewrite bool_decide_false by lia. by rewrite bool_decide_true by lia.
  - intros Hcs. rewrite (cell_sink m g a 1 c Sg Ha) by (unfold nx; lia || done).
    by rewrite bool_decide_true by lia.
  - intros Hout. rewrite (cell_sink m g a r c Sg Ha Hr Hc).
    case_bool_decide as H1.
    + destruct H1 as [-> Hcs]. destruct m as [|m]; [|lia].
      rewrite grid_after_0 in Hg. injection Hg as <-.
      rewrite cell_init_u0 by done. by rewrite bool_decide_true by lia.
    + by rewrite bool_decide_false by lia.
Qed.

Lemma sink_shifts_slab_rows_witness :
  shaped zeros ∧ (3 < nsteps)%nat
  ∧ ∃ g a : grid,
      grid_after 3 zeros = Some g ∧ sink 3 g = Some a
      ∧ ∀ r c, (r < nx)%nat → (c < ny)%nat →
          ((2 ≤ r ≤ 3)%nat → (25 ≤ c ≤ 74)%nat → cell a r c = cell g (r - 1) c)
          ∧ ((25 ≤ c ≤ 74)%nat → cell a 1 c = Tslab)
          ∧ (¬ ((1 ≤ r ≤ 3)%nat ∧ (25 ≤ c ≤ 74)%nat) → cell a r c = cell g r c).
Proof.
  assert (shaped zeros) as H1 by (apply shaped_by_evaluation; vm_compute; reflexivity).
  assert (3 < nsteps)%nat as H2 by (unfold nsteps; lia).
  split; [exact H1|]. split; [exact H2|].
  exact (sink_shifts_slab_rows zeros 3 H1 H2).
Defined.

(** C4. After every step (and on the initial grid) every cell of column 0,
    of column [nx-1] and of row [ny-1] equals [Tmantle]. *)
Theorem walls_stay_at_Tmantle (junk : grid) (n : nat) :
  shaped junk → (n ≤ nsteps)%nat →
  ∃ g : grid,
    grid_after n junk = Some g
    ∧ (∀ j, (j < ny)%nat → cell g j 0 = Tmantle ∧ cell g j (nx - 1) = Tmantle)
    ∧ (∀ i, (i < nx)%nat → cell g (ny - 1) i = Tmantle).
Proof.
  intros Hj Hn. destruct n as [|n].
  - exists init_u0. split; [apply grid_after_0|]. unfold nx, ny. split.
    + intros j Hjr. rewrite !cell_init_u0 by (unfold nx, ny; lia).
      by rewrite !bool_decide_false by lia.
    + intros i Hi. rewrite cell_init_u0 by (unfold nx, ny; lia).
      by rewrite bool_decide_false by lia.
  - destruct (run_arrays n junk Hj ltac:(lia)) as (g & b & Hg & Hb & Sg & Sb & _).
    destruct (arrays_after_S n junk) as [E1 _].
    rewrite Hg, Hb in E1. cbn [mbind option_bind] in E1.
    rewrite (sink_Some n g Sg) in E1 by lia. cbn [mbind option_bind] in E1.
    set (a := assign_row_scalar _ _ _ _ _) in E1.
    assert (shaped a) as Sa by apply shaped_assign_row_scalar, shaped_assign2, Sg.
    exists (diffuse a b). split; [exact E1|].
    assert (∀ r c, (r < nx)%nat → (c < ny)%nat → pinned r c = true →
                   cell (diffuse a b) r c = Tmantle) as Hpin.
    { intros r c Hr Hc Hp. rewrite (cell_diffuse a b r c Sa Sb Hr Hc). by rewrite Hp. }
    split.
    + intros j Hjr. split; apply Hpin; try (unfold nx, ny in *; lia);
        apply pinned_true; lia.
    + intros i Hi. apply Hpin; try (unfold nx, ny in *; lia).
      apply pinned_true; lia.
Qed.

Lemma walls_stay_at_Tmantle_witness :
  shaped zeros ∧ (2 ≤ nsteps)%nat
  ∧ ∃ g : grid,
      grid_after 2 zeros = Some g
      ∧ (∀ j, (j < ny)%nat → cell g j 0 = Tmantle ∧ cell g j (nx - 1) = Tmantle)
      ∧ (∀ i, (i < nx)%nat → cell g (ny - 1) i = Tmantle).
Proof.
  assert (shaped zeros) as H1 by (apply shaped_by_evaluation; vm_compute; reflexivity).
  assert (2 ≤ nsteps)%nat as H2 by (unfold nsteps; lia).
  split; [exact H1|]. split; [exact H2|].
  exact (walls_stay_at_Tmantle zeros 2 H1 H2).
Defined.

(** C6. Every step is the shift followed by the diffusion: the array bound
    to [u0] (and to [u]) after step [m] is [diffuser]'s result on the
    shifted array of the previous step and on the buffer, which from the
    second step on holds the previous grid.  The shifted array [a] is the
    previous grid with rows [2..m] of columns 25..74 taken from the row
    above, row 1 of these columns at [Tslab], and every other cell as it
    was; the interior of the new grid is the five-point update of [a],
    not of the unshifted grid. *)
Theorem step_is_sink_then_diffuse (junk : grid) (m : nat) :
  shaped junk → (m < nsteps)%nat →
  ∃ g b a : grid,
    grid_after m junk = Some g ∧ buffer_after m junk = Some b
    ∧ ((1 ≤ m)%nat → b = g)
    ∧ sink m g = Some a
    ∧ (∀ r c, (r < nx)%nat → (c < ny)%nat →
         ((2 ≤ r ≤ m)%nat → (25 ≤ c ≤ 74)%nat → cell a r c = cell g (r - 1) c)
         ∧ ((25 ≤ c ≤ 74)%nat → cell a 1 c = Tslab)
         ∧ (¬ ((1 ≤ r ≤ m)%nat ∧ (25 ≤ c ≤ 74)%nat) → cell a r c = cell g r c))
    ∧ grid_after (S m) junk = Some (diffuse a b)
    ∧ buffer_after (S m) junk = Some (diffuse a b)
    ∧ ∀ i j, (1 ≤ i ≤ nx - 2)%nat → (1 ≤ j ≤ ny - 2)%nat →
        cell (diffuse a b) i j = five_point a i j.
Proof.
  intros Hj Hm.
  destruct (run_arrays m junk Hj ltac:(lia)) as (g & b & Hg & Hb & Sg & Sb & _ & Hbg).
  pose proof (sink_Some m g Sg Hm) as Ha. set (a := assign_row_scalar _ _ _ _ _) in Ha.
  assert (shaped a) as Sa by apply shaped_assign_row_scalar, shaped_assign2, Sg.
  destruct (arrays_after_S m junk) as [E1 E2].
  rewrite Hg, Hb in E1. cbn [mbind option_bind] in E1.
  rewrite Ha in E1. cbn [mbind option_bind] in E1.
  exists g, b, a.
  split; [exact Hg|]. split; [exact Hb|]. split; [exact Hbg|]. split; [exact Ha|].
  split.
  { intros r c Hr Hc. split; [|split].
    - intros Hrm Hcs. rewrite (cell_sink m g a r c Sg Ha Hr Hc).
      rewrite bool_decide_false by lia. by rewrite bool_decide_true by lia.
    - intros Hcs. rewrite (cell_sink m g a 1 c Sg Ha) by (unfold nx; lia || done).
      by rewrite bool_decide_true by lia.
    - intros Hout. rewrite (cell_sink m g a r c Sg Ha Hr Hc).
      case_bool_decide as H1.
      + destruct H1 as [-> Hcs]. destruct m as [|m]; [|lia].
        rewrite grid_after_0 in Hg. injection Hg as <-.
        rewrite cell_init_u0 by done. by rewrite bool_decide_true by lia.
      + by rewrite bool_decide_false by lia. }
  split; [exact E1|]. split; [rewrite E2; exact E1|].
  intros i j Hi Hjc.
  assert (pinned i j = false) as Hpin.
  { apply not_true_is_false. rewrite pinned_true. unfold nx, ny in *. lia. }
  rewrite (cell_diffuse a b i j Sa Sb) by (unfold nx, ny in *; lia).
  rewrite Hpin. by rewrite bool_decide_true by done.
Qed.

Lemma step_is_sink_then_diffuse_witness :
  shaped zeros ∧ (5 < nsteps)%nat
  ∧ ∃ g b a : grid,
      grid_after 5 zeros = Some g ∧ buffer_after 5 zeros = Some b
      ∧ ((1 ≤ 5)%nat → b = g)
      ∧ sink 5 g = Some a
      ∧ (∀ r c, (r < nx)%nat → (c < ny)%nat →
           ((2 ≤ r ≤ 5)%nat → (25 ≤ c ≤ 74)%nat → cell a r c = cell g (r - 1) c)
           ∧ ((25 ≤ c ≤ 74)%nat → cell a 1 c = Tslab)
           ∧ (¬ ((1 ≤ r ≤ 5)%nat ∧ (25 ≤ c ≤ 74)%nat) → cell a r c = cell g r c))
      ∧ grid_after 6 zeros = Some (diffuse a b)
      ∧ buffer_after 6 zeros = Some (diffuse a b)
      ∧ ∀ i j, (1 ≤ i ≤ nx - 2)%nat → (1 ≤ j ≤ ny - 2)%nat →
          cell (diffuse a b) i j = five_point a i j.
Proof.
  assert (shaped zeros) as H1 by (apply shaped_by_evaluation; vm_compute; reflexivity).
  assert (5 < nsteps)%nat as H2 by (unfold nsteps; lia).
  split; [exact H1|]. split; [exact H2|].
  exact (step_is_sink_then_diffuse zeros 5 H1 H2).
Defined.

(** C9. [snapshot] leaves the simulator as it was. Two calls in a row
    return two different new objects, both holding the array bound to [u];
    the names, the objects already in the store and the list of images are
    unchanged; and a later assignment into the array of [u] changes
    neither copy. *)
Theorem snapshot_is_independent_copy (s : state) (g : grid) :
  heap s !! at_u s = Some g →
  ∃ (l1 l2 : loc) (s1 s2 : state),
    snapshot s = Some (l1, s1) ∧ snapshot s1 = Some (l2, s2)
    ∧ heap s2 !! l1 = Some g ∧ heap s2 !! l2 = Some g
    ∧ l1 ≠ l2 ∧ heap s !! l1 = None ∧ heap s !! l2 = None
    ∧ at_u0 s2 = at_u0 s ∧ at_u s2 = at_u s ∧ shown s2 = shown s
    ∧ (∀ k, is_Some (heap s !! k) → heap s2 !! k = heap s !! k)
    ∧ ∀ (f : grid → option grid) (g' : grid), f g = Some g' →
        ∃ s3, mutate (at_u s2) f s2 = Some ((), s3)
              ∧ heap s3 !! at_u s3 = Some g'
              ∧ heap s3 !! l1 = Some g ∧ heap s3 !! l2 = Some g.
Proof.
  intros Hu. rewrite snapshot_run.
  destruct (np_copy_spec _ _ s Hu) as (l1 & s1 & R1 & N1 & C1 & K1 & A1 & B1 & D1).
  assert (l1 ≠ at_u s) as Hl1 by (intros ->; congruence).
  assert (heap s1 !! at_u s1 = Some g) as Hu1.
  { rewrite B1, K1 by congruence. exact Hu. }
  destruct (np_copy_spec _ _ s1 Hu1) as (l2 & s2 & R2 & N2 & C2 & K2 & A2 & B2 & D2).
  assert (l2 ≠ l1) as Hl21 by (intros ->; congruence).
  assert (l2 ≠ at_u s) as Hl2 by (intros ->; rewrite B1 in Hu1; congruence).
  assert (heap s !! l2 = None) as N2s by (rewrite <- (K1 l2 Hl21); exact N2).
  exists l1, l2, s1, s2.
  split; [exact R1|]. split; [rewrite snapshot_run; exact R2|].
  split; [rewrite K2 by congruence; exact C1|]. split; [exact C2|].
  split; [congruence|]. split; [exact N1|]. split; [exact N2s|].
  split; [congruence|]. split; [congruence|]. split; [congruence|].
  split.
  { intros k [x Hx]. rewrite K2, K1; [reflexivity| |]; intros ->; congruence. }
  intros f g' Hf.
  assert (heap s2 !! at_u s2 = Some g) as Hu2.
  { rewrite B2, B1, K2, K1 by congruence. exact Hu. }
  eexists. split; [apply (mutate_Some _ f g g' s2 Hu2 Hf)|]. cbn [heap with_heap at_u].
  split; [apply lookup_insert_eq|].
  rewrite !lookup_insert_ne by (rewrite B2, B1; congruence).
  split; [rewrite K2 by congruence; exact C1|exact C2].
Qed.

Lemma snapshot_is_independent_copy_witness :
  heap (init zeros) !! at_u (init zeros) = Some zeros
  ∧ ∃ (l1 l2 : loc) (s1 s2 : state),
      snapshot (init zeros) = Some (l1, s1) ∧ snapshot s1 = Some (l2, s2)
      ∧ heap s2 !! l1 = Some zeros ∧ heap s2 !! l2 = Some zeros
      ∧ l1 ≠ l2 ∧ heap (init zeros) !! l1 = None ∧ heap (init zeros) !! l2 = None
      ∧ at_u0 s2 = at_u0 (init zeros) ∧ at_u s2 = at_u (init zeros)
      ∧ shown s2 = shown (init zeros)
      ∧ (∀ k, is_Some (heap (init zeros) !! k) → heap s2 !! k = heap (init zeros) !! k)
      ∧ ∀ (f : grid → option grid) (g' : grid), f zeros = Some g' →
          ∃ s3, mutate (at_u s2) f s2 = Some ((), s3)
                ∧ heap s3 !! at_u s3 = Some g'
                ∧ heap s3 !! l1 = Some zeros ∧ heap s3 !! l2 = Some zeros.
Proof.
  assert (heap (init zeros) !! at_u (init zeros) = Some zeros) as H1 by reflexivity.
  split; [exact H1|].
  exact (snapshot_is_independent_copy (init zeros) zeros H1).
Defined.

(** C10. [diffuser] writes none of the cells [u[0,25..75]]: neither the
    stencil assignment nor the boundary loop touches them, so they keep
    the contents of the buffer. In the run they therefore still hold what
    [np.empty] found, they pass into [u0] with the copy, and the next
    step's update of row 1 reads them as the neighbour above. *)
Theorem top_row_under_slab_never_written (junk prev u : grid) (n c : nat) :
  shaped junk → shaped prev → shaped u →
  (1 ≤ n < nsteps)%nat → (25 ≤ c ≤ 75)%nat →
  (cell (stencil prev u) 0 c = cell u 0 c ∧ cell (diffuse prev u) 0 c = cell u 0 c)
  ∧ ∃ g a g' : grid,
      grid_after n junk = Some g ∧ sink n g = Some a
      ∧ grid_after (S n) junk = Some g'
      ∧ cell g 0 c = cell junk 0 c
      ∧ cell a 0 c = cell junk 0 c
      ∧ cell g' 0 c = cell junk 0 c
      ∧ cell g' 1 c =
          cell a 1 c
          + K * dt * ((cell a 2 c - 2 * cell a 1 c + cell junk 0 c) / dx2
                      + (cell a 1 (c + 1) - 2 * cell a 1 c + cell a 1 (c - 1)) / dy2).
Proof.
  intros Hj Sp Su Hn Hc. split; [by apply cell_diffuse_top|].
  destruct (run_arrays n junk Hj ltac:(lia)) as (g & b & Hg & Hb & Sg & Sb & Hret & Hbg).
  specialize (Hbg ltac:(lia)). subst b.
  pose proof (sink_Some n g Sg ltac:(lia)) as Ha.
  set (a := assign_row_scalar _ _ _ _ _) in Ha.
  assert (shaped a) as Sa by apply shaped_assign_row_scalar, shaped_assign2, Sg.
  destruct (arrays_after_S n junk) as [E1 _].
  rewrite Hg, Hb in E1. cbn [mbind option_bind] in E1.
  rewrite Ha in E1. cbn [mbind option_bind] in E1.
  assert (cell a 0 c = cell junk 0 c) as Ha0.
  { rewrite (cell_sink n g a 0 c Sg Ha) by (unfold nx, ny; lia).
    rewrite !bool_decide_false by lia. by apply Hret. }
  exists g, a, (diffuse a g).
  split; [exact Hg|]. split; [exact Ha|]. split; [exact E1|].
  split; [by apply Hret|]. split; [exact Ha0|].
  split.
  - destruct (cell_diffuse_top a g c Sa Sg Hc) as [_ ->]. by apply Hret.
  - assert (pinned 1 c = false) as Hpin.
    { apply not_true_is_false. rewrite pinned_true. unfold nx, ny. lia. }
    rewrite (cell_diffuse a g 1 c Sa Sg) by (unfold nx, ny; lia).
    rewrite Hpin, bool_decide_true by (unfold nx, ny; lia).
    unfold five_point. change (1 + 1)%nat with 2%nat. change (1 - 1)%nat with 0%nat.
    by rewrite Ha0.
Qed.

Lemma top_row_under_slab_never_written_witness :
  shaped zeros ∧ shaped init_u0 ∧ shaped zeros
  ∧ (1 ≤ 1 < nsteps)%nat ∧ (25 ≤ 75 ≤ 75)%nat
  ∧ (cell (stencil init_u0 zeros) 0 75 = cell zeros 0 75
     ∧ cell (diffuse init_u0 zeros) 0 75 = cell zeros 0 75)
  ∧ ∃ g a g' : grid,
      grid_after 1 zeros = Some g ∧ sink 1 g = Some a
      ∧ grid_after 2 zeros = Some g'
      ∧ cell g 0 75 = cell zeros 0 75
      ∧ cell a 0 75 = cell zeros 0 75
      ∧ cell g' 0 75 = cell zeros 0 75
      ∧ cell g' 1 75 =
          cell a 1 75
          + K * dt * ((cell a 2 75 - 2 * cell a 1 75 + cell zeros 0 75) / dx2
                      + (cell a 1 (75 + 1) - 2 * cell a 1 75 + cell a 1 (75 - 1)) / dy2).
Proof.
  assert (shaped zeros) as H1 by (apply shaped_by_evaluation; vm_compute; reflexivity).
  assert (shaped init_u0) as H2 by (apply shaped_by_evaluation; vm_compute; reflexivity).
  assert (1 ≤ 1 < nsteps)%nat as H3 by (unfold nsteps; lia).
  assert (25 ≤ 75 ≤ 75)%nat as H4 by lia.
  split; [exact H1|]. split; [exact H2|]. split; [exact H1|].
  split; [exact H3|]. split; [exact H4|].
  exact (top_row_under_slab_never_written zeros init_u0 zeros 1 75 H1 H2 H1 H3 H4).
Defined.

(** C5 (evaluated where the code departs from it). The boundary loop tests
    [i > 75], so column 75 of the top row is not pinned: with a buffer of
    zeros the cell [u0[0,75]] holds 0 after the first step, not
    [Tmantle]. *)
Theorem top_row_column_75_keeps_buffer :
  ∃ g : grid, grid_after 1 zeros = Some g
    ∧ cell g 0 75 = 0 ∧ ¬ cell g 0 75 == Tmantle.
Proof.
  assert (shaped zeros) as Hz by apply shaped_full.
  destruct (run_arrays 1 zeros Hz ltac:(unfold nsteps; lia))
    as (g & b & Hg & _ & _ & _ & Hret & Hbg).
  specialize (Hbg ltac:(lia)). subst b.
  exists g. split; [exact Hg|].
  assert (cell g 0 75 = 0) as E.
  { rewrite (Hret 75%nat) by lia. apply cell_full; unfold nx, ny; lia. }
  split; [exact E|]. rewrite E. unfold Tmantle. intros H. discriminate H.
Qed.

(** C3 (evaluated where the code departs from it). With a buffer whose
    contents lie above [Tmantle], the top row of the grid is out of range
    after the first step and the interior of row 1 is after the second. *)
Theorem stale_buffer_leaves_the_range :
  (∃ g : grid, grid_after 1 stale = Some g ∧ Tmantle < cell g 0 30)
  ∧ (∃ g : grid, grid_after 2 stale = Some g ∧ Tmantle < cell g 1 30).
Proof.
  split.
  - assert (shaped stale) as Hz by apply shaped_full.
    destruct (run_arrays 1 stale Hz ltac:(unfold nsteps; lia))
      as (g & b & Hg & _ & _ & _ & Hret & Hbg).
    specialize (Hbg ltac:(lia)). subst b.
    exists g. split; [exact Hg|].
    rewrite (Hret 30%nat) by lia. unfold stale.
    rewrite cell_full by (unfold nx, ny; lia). reflexivity.
  - assert ((g ← grid_after 2 stale; Some (Tmantle ?= cell g 1 30)) = Some Lt) as Hobs
      by (vm_compute; reflexivity).
    destruct (grid_after 2 stale) as [g|]; [|discriminate Hobs].
    exists g. split; [reflexivity|].
    cbn [mbind option_bind] in Hobs. injection Hobs as Hlt.
    apply Qlt_alt. exact Hlt.
Qed.

(** C8, as the code has it. After exactly one step from the initial
    100x100 grid the slab's columns of row 2 hold 975, and row 1 is
    strictly below [Tmantle] exactly in columns 24..75 (650 in columns
    26..73, 975 in columns 24, 25, 74 and 75); the other interior cells of
    row 1 still equal [Tmantle]. *)
Theorem first_step_cools_rows_1_and_2 (junk : grid) :
  shaped junk →
  ∃ g : grid, grid_after 1 junk = Some g
    ∧ (∀ c, (25 ≤ c ≤ 74)%nat → cell g 2 c == 975)
    ∧ (∀ c, (26 ≤ c ≤ 73)%nat → cell g 1 c == 650)
    ∧ (∀ c, (24 ≤ c ≤ 25)%nat ∨ (74 ≤ c ≤ 75)%nat → cell g 1 c == 975)
    ∧ (∀ c, (24 ≤ c ≤ 75)%nat → cell g 1 c < Tmantle)
    ∧ (∀ c, (1 ≤ c ≤ 23)%nat ∨ (76 ≤ c ≤ 98)%nat → cell g 1 c == Tmantle).
Proof.
  intros Hj. exists (diffuse init_u0 junk). split; [apply grid_after_1|].
  destruct (first_step_rows junk Hj) as (H2 & H1 & H1e & H1o).
  split; [exact H2|]. split; [exact H1|]. split; [exact H1e|]. split; [|exact H1o].
  intros c Hc. destruct (decide (26 ≤ c ≤ 73)%nat) as [Hin|Hout].
  - rewrite (H1 c Hin). reflexivity.
  - rewrite (H1e c) by lia. reflexivity.
Qed.

Lemma first_step_cools_rows_1_and_2_witness :
  shaped zeros
  ∧ ∃ g : grid, grid_after 1 zeros = Some g
      ∧ (∀ c, (25 ≤ c ≤ 74)%nat → cell g 2 c == 975)
      ∧ (∀ c, (26 ≤ c ≤ 73)%nat → cell g 1 c == 650)
      ∧ (∀ c, (24 ≤ c ≤ 25)%nat ∨ (74 ≤ c ≤ 75)%nat → cell g 1 c == 975)
      ∧ (∀ c, (24 ≤ c ≤ 75)%nat → cell g 1 c < Tmantle)
      ∧ (∀ c, (1 ≤ c ≤ 23)%nat ∨ (76 ≤ c ≤ 98)%nat → cell g 1 c == Tmantle).
Proof.
  assert (shaped zeros) as H1 by (apply shaped_by_evaluation; vm_compute; reflexivity).
  split; [exact H1|].
  exact (first_step_cools_rows_1_and_2 zeros H1).
Defined.

(** C8 as stated fails: after one step the slab's cell [(2,30)] holds 975
    and not [Tslab], and the interior cell [(1,1)] of row 1 still holds
    [Tmantle]. *)
Lemma first_step_row_2_is_not_Tslab :
  ∃ g : grid, grid_after 1 zeros = Some g
    ∧ ¬ cell g 2 30 == Tslab ∧ ¬ cell g 1 1 < Tmantle.
Proof.
  exists (diffuse init_u0 zeros). split; [apply grid_after_1|].
  destruct (first_step_rows zeros (shaped_full 0)) as (H2 & _ & _ & H1o).
  split.
  - rewrite (H2 30%nat) by lia. unfold Tslab. intros H. discriminate H.
  - rewrite (H1o 1%nat) by lia. apply Qlt_irrefl.
Qed.




(** * Further properties of the script *)

Lemma figure_steps_S n :
  figure_steps (S n) = figure_steps n ++ (if bool_decide (n ∈ mfig) then [n] else []).
Proof.
  unfold figure_steps, mfig. cbn [List.filter].
  destruct (decide (n = 0%nat)) as [->|H0]; [reflexivity|].
  destruct (decide (n = 10%nat)) as [->|H10]; [reflexivity|].
  destruct (decide (n = 50%nat)) as [->|H50]; [reflexivity|].
  destruct (decide (n = 99%nat)) as [->|H99]; [reflexivity|].
  rewrite bool_decide_false.
  2:{ rewrite !elem_of_cons, elem_of_nil. lia. }
  rewrite app_nil_r.
  destruct (Nat.ltb_spec 0 (S n)), (Nat.ltb_spec 0 n),
    (Nat.ltb_spec 10 (S n)), (Nat.ltb_spec 10 n),
    (Nat.ltb_spec 50 (S n)), (Nat.ltb_spec 50 n),
    (Nat.ltb_spec 99 (S n)), (Nat.ltb_spec 99 n); try lia; reflexivity.
Qed.

(** The images and the iterations: an iteration leaves the earlier images
    as they are and, at a step of [mfig], adds a new one. *)
Lemma images_of_the_run n (junk : grid) s :
  shaped junk → (n ≤ nsteps)%nat → after n junk = Some s → images_ok junk n s.
Proof.
  intros Hj. revert s. induction n as [|n IH]; intros s' Hn Hs'.
  - rewrite after_0 in Hs'. injection Hs' as <-. split; [constructor|constructor].
  - rewrite after_S in Hs'.
    destruct (after n junk) as [s|] eqn:Hs; [|discriminate Hs'].
    cbn [mbind option_bind] in Hs'.
    destruct (IH s ltac:(lia) eq_refl) as [Himgs Hnd].
    destruct (run_arrays n junk Hj ltac:(lia)) as (g & b & Hg & Hb & Sg & _).
    pose proof (sink_Some n g Sg ltac:(lia)) as Ha.
    set (a := assign_row_scalar _ _ _ _ _) in Ha.
    destruct (arrays_after_S n junk) as [E1 _].
    rewrite Hg, Hb in E1. cbn [mbind option_bind] in E1.
    rewrite Ha in E1. cbn [mbind option_bind] in E1.
    rewrite grid_after_unfold in Hg. rewrite buffer_after_unfold in Hb.
    rewrite Hs in Hg, Hb. cbn [mbind option_bind] in Hg, Hb.
    destruct (live_after n junk s Hs) as (_ & _ & Hne).
    destruct (iteration_spec n s g b a Hg Hb Hne Ha)
      as (s'' & Hit & H0 & Hu & Eu & Hfresh & Hold & Hshown).
    rewrite Hit in Hs'. cbn [fmap option_fmap option_map snd] in Hs'.
    injection Hs' as <-. clear Hit.
    assert (Forall2 (λ m p, p.1 = (m * 10)%nat
                  ∧ is_Some (heap s'' !! p.2)
                  ∧ heap s'' !! p.2 = grid_after (S m) junk
                  ∧ p.2 ≠ at_u0 s'' ∧ p.2 ≠ at_u s'')
              (figure_steps n) (shown s)) as Hkeep.
    { eapply Forall2_impl; [exact Himgs|].
      intros m p (Ht & Hal & Hc & Hp0 & Hpu). cbv beta.
      assert (heap s'' !! p.2 = heap s !! p.2) as Esame by (apply Hold; assumption).
      split; [exact Ht|]. split; [rewrite Esame; exact Hal|].
      split; [rewrite Esame; exact Hc|].
      split; [|rewrite Eu; exact Hpu].
      intros Heq. rewrite Heq, Hfresh in Hal. by apply is_Some_None in Hal. }
    unfold images_ok. rewrite figure_steps_S.
    destruct (bool_decide (n ∈ mfig)).
    + destruct Hshown as (img & -> & Himg & Himg0 & Himg').
      split.
      * apply Forall2_app; [exact Hkeep|].
        constructor; [|constructor]. cbn [fst snd].
        split; [reflexivity|]. split; [rewrite Himg'; by eexists|].
        split; [rewrite Himg', E1; reflexivity|].
        split; [exact Himg0|]. rewrite Eu. intros ->. congruence.
      * rewrite fmap_app. apply NoDup_app. split; [exact Hnd|].
        split; [|apply NoDup_singleton].
        intros l Hl Hl'. cbn [fmap list_fmap snd] in Hl'.
        apply list_elem_of_singleton in Hl'. subst l.
        apply list_elem_of_fmap in Hl as (p & Hp & Hin).
        apply list_elem_of_lookup in Hin as (k & Hk).
        destruct (Forall2_lookup_r _ _ _ _ _ Himgs Hk) as (m & _ & _ & Hal & _).
        rewrite <- Hp, Himg in Hal. by apply is_Some_None in Hal.
    + rewrite Hshown, app_nil_r. split; [exact Hkeep|exact Hnd].
Qed.

(** A buffer that differs from [zeros] away from the top row. *)
Lemma dented_buffer :
  shaped (set_cell 50 50 7 zeros)
  ∧ ∀ c, (25 ≤ c ≤ 75)%nat → cell zeros 0 c = cell (set_cell 50 50 7 zeros) 0 c.
Proof.
  split; [apply shaped_set_cell, shaped_full|].
  intros c Hc. unfold cell. rewrite lookup2_set_cell.
  destruct (lookup2 zeros 0 c) as [x|]; [|reflexivity].
  cbn [fmap option_fmap option_map].
  rewrite bool_decide_false; [reflexivity|]. intros [H _]. discriminate H.
Qed.

(** X1. The two nested boundary loops amount to assigning [Tmantle] to
    column 0, column [nx-1], row [ny-1] and the top row outside columns
    25..75; every other cell and the shape of the array are left alone. *)
Theorem boundary_pins_the_walls (u : grid) (r c : nat) :
  shaped u → (r < nx)%nat → (c < ny)%nat →
  shaped (boundary u)
  ∧ cell (boundary u) r c =
      if decide (c = 0%nat ∨ c = (nx - 1)%nat ∨ r = (ny - 1)%nat
                 ∨ (r = 0%nat ∧ ((c < 25)%nat ∨ (75 < c)%nat)))
      then Tmantle else cell u r c.
Proof.
  intros Hu Hr Hc. split; [exact (shaped_boundary u Hu)|].
  rewrite (cell_boundary u r c Hu Hr Hc).
  destruct (pinned r c) eqn:Hp.
  - apply pinned_true in Hp. rewrite decide_True by exact Hp. reflexivity.
  - apply not_true_iff_false in Hp. rewrite pinned_true in Hp.
    rewrite decide_False by exact Hp. reflexivity.
Qed.

Lemma boundary_pins_the_walls_witness :
  shaped zeros ∧ (0 < nx)%nat ∧ (75 < ny)%nat
  ∧ shaped (boundary zeros)
  ∧ cell (boundary zeros) 0 75 =
      if decide (75%nat = 0%nat ∨ 75%nat = (nx - 1)%nat ∨ 0%nat = (ny - 1)%nat
                 ∨ (0%nat = 0%nat ∧ ((75 < 25)%nat ∨ (75 < 75)%nat)))
      then Tmantle else cell zeros 0 75.
Proof.
  assert (shaped zeros) as H1 by (apply shaped_by_evaluation; vm_compute; reflexivity).
  assert (0 < nx)%nat as H2 by (unfold nx; lia).
  assert (75 < ny)%nat as H3 by (unfold ny; lia).
  split; [exact H1|]. split; [exact H2|]. split; [exact H3|].
  exact (boundary_pins_the_walls zeros 0 75 H1 H2 H3).
Defined.

(** The cells of [u] that survive a call of [diffuser]. *)
Lemma diffuse_buffer_ext (prev u u' : grid) :
  shaped prev → shaped u → shaped u' →
  (∀ c, (25 ≤ c ≤ 75)%nat → cell u 0 c = cell u' 0 c) →
  diffuse prev u = diffuse prev u'.
Proof.
  intros Sp Su Su' H. apply grid_ext.
  - exact (shaped_diffuse prev u Su).
  - exact (shaped_diffuse prev u' Su').
  - intros r c Hr Hc.
    rewrite (cell_diffuse prev u r c Sp Su Hr Hc), (cell_diffuse prev u' r c Sp Su' Hr Hc).
    destruct (pinned r c) eqn:Hp; [reflexivity|].
    apply not_true_iff_false in Hp. rewrite pinned_true in Hp.
    case_bool_decide as Hin; [reflexivity|].
    assert (r = 0%nat) as -> by (unfold nx, ny in *; lia).
    apply H. unfold nx, ny in *. lia.
Qed.

(** X3. Of the array passed as [u], [diffuser] keeps the 51 cells
    [u[0,25..75]] and nothing else: two buffers give the same result
    exactly when they agree on those cells. *)
Theorem diffuse_reads_51_buffer_cells (prev u u' : grid) :
  shaped prev → shaped u → shaped u' →
  diffuse prev u = diffuse prev u'
  ↔ ∀ c, (25 ≤ c ≤ 75)%nat → cell u 0 c = cell u' 0 c.
Proof.
  intros Sp Su Su'. split.
  - intros E c Hc.
    rewrite <- (proj2 (cell_diffuse_top prev u c Sp Su Hc)).
    rewrite <- (proj2 (cell_diffuse_top prev u' c Sp Su' Hc)).
    rewrite E. reflexivity.
  - exact (diffuse_buffer_ext prev u u' Sp Su Su').
Qed.

Lemma diffuse_reads_51_buffer_cells_witness :
  shaped init_u0 ∧ shaped zeros ∧ shaped (set_cell 50 50 7 zeros)
  ∧ (diffuse init_u0 zeros = diffuse init_u0 (set_cell 50 50 7 zeros)
     ↔ ∀ c, (25 ≤ c ≤ 75)%nat → cell zeros 0 c = cell (set_cell 50 50 7 zeros) 0 c).
Proof.
  assert (shaped init_u0) as H1 by (apply shaped_by_evaluation; vm_compute; reflexivity).
  assert (shaped zeros) as H2 by (apply shaped_by_evaluation; vm_compute; reflexivity).
  destruct dented_buffer as [H3 _].
  split; [exact H1|]. split; [exact H2|]. split; [exact H3|].
  exact (diffuse_reads_51_buffer_cells init_u0 zeros (set_cell 50 50 7 zeros) H1 H2 H3).
Defined.

(** X4. Called on two different objects that hold arrays of shape
    [(nx, ny)], [diffuser] overwrites only the second, allocates one new
    object for the copy it returns, and leaves its first argument, every
    other object, the names and the images as they were. *)
Theorem diffuser_footprint (a b : loc) (prev u : grid) (s : state) :
  heap s !! a = Some prev → heap s !! b = Some u →
  shaped prev → shaped u → a ≠ b →
  ∃ (c : loc) (s' : state),
    diffuser a b s = Some ((c, b), s')
    ∧ heap s !! c = None
    ∧ heap s' !! a = Some prev
    ∧ heap s' !! b = Some (diffuse prev u)
    ∧ heap s' !! c = Some (diffuse prev u)
    ∧ shaped (diffuse prev u)
    ∧ (∀ k, k ≠ b → k ≠ c → heap s' !! k = heap s !! k)
    ∧ at_u0 s' = at_u0 s ∧ at_u s' = at_u s ∧ shown s' = shown s.
Proof.
  intros Ha Hb Sp Su Hab.
  destruct (diffuser_spec a b prev u s Ha Hb)
    as (c & s' & Hrun & Hc & Hc' & Hb' & Hk & E1 & E2 & E3).
  exists c, s'. split; [exact Hrun|]. split; [exact Hc|].
  split.
  { rewrite (Hk a Hab); [exact Ha|]. intros ->. congruence. }
  split; [exact Hb'|]. split; [exact Hc'|].
  split; [exact (shaped_diffuse prev u Su)|]. split; [exact Hk|].
  split; [exact E1|]. split; [exact E2|exact E3].
Qed.

Lemma diffuser_footprint_witness :
  heap (init zeros) !! 1%positive = Some init_u0
  ∧ heap (init zeros) !! 2%positive = Some zeros
  ∧ shaped init_u0 ∧ shaped zeros
  ∧ 1%positive ≠ 2%positive
  ∧ ∃ (c : loc) (s' : state),
      diffuser 1%positive 2%positive (init zeros) = Some ((c, 2%positive), s')
      ∧ heap (init zeros) !! c = None
      ∧ heap s' !! 1%positive = Some init_u0
      ∧ heap s' !! 2%positive = Some (diffuse init_u0 zeros)
      ∧ heap s' !! c = Some (diffuse init_u0 zeros)
      ∧ shaped (diffuse init_u0 zeros)
      ∧ (∀ k, k ≠ 2%positive → k ≠ c → heap s' !! k = heap (init zeros) !! k)
      ∧ at_u0 s' = at_u0 (init zeros) ∧ at_u s' = at_u (init zeros)
      ∧ shown s' = shown (init zeros).
Proof.
  assert (heap (init zeros) !! 1%positive = Some init_u0) as H1 by reflexivity.
  assert (heap (init zeros) !! 2%positive = Some zeros) as H2 by reflexivity.
  assert (shaped init_u0) as H3 by (apply shaped_by_evaluation; vm_compute; reflexivity).
  assert (shaped zeros) as H4 by (apply shaped_by_evaluation; vm_compute; reflexivity).
  assert (1%positive ≠ 2%positive) as H5 by (intros H; discriminate H).
  split; [exact H1|]. split; [exact H2|]. split; [exact H3|]. split; [exact H4|].
  split; [exact H5|].
  exact (diffuser_footprint 1%positive 2%positive init_u0 zeros (init zeros)
           H1 H2 H3 H4 H5).
Defined.

(** X5. Called with one and the same object for both arguments,
    [diffuser] still computes the update from the values the array had on
    entry: the right-hand side of the stencil assignment is evaluated
    before anything is written. *)
Theorem diffuser_on_one_array (a : loc) (g : grid) (s : state) :
  heap s !! a = Some g → shaped g →
  ∃ (c : loc) (s' : state),
    diffuser a a s = Some ((c, a), s')
    ∧ heap s' !! a = Some (diffuse g g)
    ∧ heap s' !! c = Some (diffuse g g)
    ∧ c ≠ a
    ∧ (∀ i j, (1 ≤ i ≤ nx - 2)%nat → (1 ≤ j ≤ ny - 2)%nat →
         cell (diffuse g g) i j = five_point g i j)
    ∧ (∀ j, (25 ≤ j ≤ 75)%nat → cell (diffuse g g) 0 j = cell g 0 j).
Proof.
  intros Ha Sg.
  destruct (diffuser_spec a a g g s Ha Ha)
    as (c & s' & Hrun & Hc & Hc' & Hb' & _).
  exists c, s'. split; [exact Hrun|]. split; [exact Hb'|]. split; [exact Hc'|].
  split; [intros ->; congruence|].
  split.
  - intros i j Hi Hj.
    assert (pinned i j = false) as Hpin.
    { apply not_true_is_false. rewrite pinned_true. unfold nx, ny in *. lia. }
    rewrite (cell_diffuse g g i j Sg Sg) by (unfold nx, ny in *; lia).
    rewrite Hpin, bool_decide_true by (split; assumption). reflexivity.
  - intros j Hj. exact (proj2 (cell_diffuse_top g g j Sg Sg Hj)).
Qed.

Lemma diffuser_on_one_array_witness :
  heap (init zeros) !! 1%positive = Some init_u0 ∧ shaped init_u0
  ∧ ∃ (c : loc) (s' : state),
      diffuser 1%positive 1%positive (init zeros) = Some ((c, 1%positive), s')
      ∧ heap s' !! 1%positive = Some (diffuse init_u0 init_u0)
      ∧ heap s' !! c = Some (diffuse init_u0 init_u0)
      ∧ c ≠ 1%positive
      ∧ (∀ i j, (1 ≤ i ≤ nx - 2)%nat → (1 ≤ j ≤ ny - 2)%nat →
           cell (diffuse init_u0 init_u0) i j = five_point init_u0 i j)
      ∧ (∀ j, (25 ≤ j ≤ 75)%nat → cell (diffuse init_u0 init_u0) 0 j = cell init_u0 0 j).
Proof.
  assert (heap (init zeros) !! 1%positive = Some init_u0) as H1 by reflexivity.
  assert (shaped init_u0) as H2 by (apply shaped_by_evaluation; vm_compute; reflexivity).
  split; [exact H1|]. split; [exact H2|].
  exact (diffuser_on_one_array 1%positive init_u0 (init zeros) H1 H2).
Defined.

(** X6. In the first two iterations ([m = 0] and [m = 1]) both slices of
    line 99 are empty: nothing is shifted, and the only effect of lines
    99-100 is that row 1 of the slab's columns is set to [Tslab]. *)
Theorem sink_nothing_to_shift (g : grid) (m : nat) :
  shaped g → (m ≤ 1)%nat →
  ∃ a : grid, sink m g = Some a ∧ shaped a
    ∧ ∀ r c, (r < nx)%nat → (c < ny)%nat →
        cell a r c =
          if decide (r = 1%nat ∧ (25 ≤ c ≤ 74)%nat) then Tslab else cell g r c.
Proof.
  intros Sg Hm.
  pose proof (sink_Some m g Sg ltac:(unfold nsteps; lia)) as Ha.
  set (a := assign_row_scalar _ _ _ _ _) in Ha.
  exists a. split; [exact Ha|]. split; [exact (shaped_sink m g a Sg Ha)|].
  intros r c Hr Hc. rewrite (cell_sink m g a r c Sg Ha Hr Hc).
  destruct (decide (r = 1%nat ∧ (25 ≤ c ≤ 74)%nat)) as [Hin|Hout].
  - rewrite bool_decide_true by lia. reflexivity.
  - rewrite !bool_decide_false by lia. reflexivity.
Qed.

Lemma sink_nothing_to_shift_witness :
  shaped hot ∧ (1 ≤ 1)%nat
  ∧ ∃ a : grid, sink 1 hot = Some a ∧ shaped a
      ∧ ∀ r c, (r < nx)%nat → (c < ny)%nat →
          cell a r c =
            if decide (r = 1%nat ∧ (25 ≤ c ≤ 74)%nat) then Tslab else cell hot r c.
Proof.
  assert (shaped hot) as H1 by (apply shaped_by_evaluation; vm_compute; reflexivity).
  assert (1 ≤ 1)%nat as H2 by lia.
  split; [exact H1|]. split; [exact H2|].
  exact (sink_nothing_to_shift hot 1 H1 H2).
Defined.

(** X7. From [m = nx] on the assignment of line 99 raises: the target
    [u0[2:m+1,25:75]] is clipped to [nx - 2] rows and the block
    [u0[1:m,25:75]] to [nx - 1], so the iteration fails before it writes
    anything. *)
Theorem shift_raises_from_step_nx (s : state) (g : grid) (m : nat) :
  heap s !! at_u0 s = Some g → shaped g → (nx ≤ m)%nat →
  sink m g = None ∧ iteration m s = None.
Proof.
  intros Hg Sg Hm. pose proof (sink_raises_beyond m g Sg Hm) as Hnone.
  split; [exact Hnone|]. exact (iteration_raises m s g Hg Hnone).
Qed.

Lemma shift_raises_from_step_nx_witness :
  heap (init zeros) !! at_u0 (init zeros) = Some init_u0 ∧ shaped init_u0
  ∧ (nx ≤ 100)%nat
  ∧ sink 100 init_u0 = None ∧ iteration 100 (init zeros) = None.
Proof.
  assert (heap (init zeros) !! at_u0 (init zeros) = Some init_u0) as H1 by reflexivity.
  assert (shaped init_u0) as H2 by (apply shaped_by_evaluation; vm_compute; reflexivity).
  assert (nx ≤ 100)%nat as H3 by (unfold nx; lia).
  split; [exact H1|]. split; [exact H2|]. split; [exact H3|].
  exact (shift_raises_from_step_nx (init zeros) init_u0 100 H1 H2 H3).
Defined.

(** X8. The shift leaves the bottom row alone in every iteration but the
    last: at [m = nx - 1] the target [u0[2:m+1,25:75]] includes row
    [nx - 1], whose slab columns receive what row [nx - 2] held, so the
    stencil of that step does not see [Tmantle] there. *)
Theorem shift_reaches_the_bottom_row_last (g a : grid) (m c : nat) :
  shaped g → (m < nsteps)%nat → sink m g = Some a → (c < ny)%nat →
  ((m < nx - 1)%nat → cell a (nx - 1) c = cell g (nx - 1) c)
  ∧ (m = (nx - 1)%nat → (25 ≤ c ≤ 74)%nat → cell a (nx - 1) c = cell g (nx - 2) c).
Proof.
  intros Sg Hm Ha Hc.
  rewrite (cell_sink m g a (nx - 1) c Sg Ha) by (unfold nx; lia || exact Hc).
  rewrite bool_decide_false by (unfold nx; lia). split.
  - intros Hlt. rewrite bool_decide_false by (unfold nx in *; lia). reflexivity.
  - intros -> Hspan. rewrite bool_decide_true by (unfold nx; lia). reflexivity.
Qed.

Lemma shift_reaches_the_bottom_row_last_witness :
  shaped ramp ∧ (99 < nsteps)%nat
  ∧ sink 99 ramp
    = Some (assign_row_scalar 1 25 75 Tslab
              (assign2 2 (99 + 1) 25 75 (slice2 1 99 25 75 ramp) ramp))
  ∧ (30 < ny)%nat
  ∧ cell ramp (nx - 1) 30 = 99 ∧ cell ramp (nx - 2) 30 = 98
  ∧ cell (assign_row_scalar 1 25 75 Tslab
            (assign2 2 (99 + 1) 25 75 (slice2 1 99 25 75 ramp) ramp)) (nx - 1) 30
    = cell ramp (nx - 2) 30.
Proof.
  assert (shaped ramp) as H1 by (apply shaped_by_evaluation; vm_compute; reflexivity).
  assert (99 < nsteps)%nat as H2 by (unfold nsteps; lia).
  pose proof (sink_Some 99 ramp H1 H2) as H3.
  assert (30 < ny)%nat as H4 by (unfold ny; lia).
  split; [exact H1|]. split; [exact H2|]. split; [exact H3|]. split; [exact H4|].
  split; [vm_compute; reflexivity|]. split; [vm_compute; reflexivity|].
  apply (proj2 (shift_reaches_the_bottom_row_last ramp _ 99 30 H1 H2 H3 H4)).
  - reflexivity.
  - lia.
Defined.

(** X9. After every iteration the names [u0] and [u] are bound to two
    different objects that hold equal arrays of shape [(nx, ny)]: [u0] is
    a copy of [u], not a second name for it. *)
Theorem names_stay_apart (junk : grid) (n : nat) :
  shaped junk → (1 ≤ n ≤ nsteps)%nat →
  ∃ (s : state) (g : grid),
    after n junk = Some s
    ∧ at_u0 s ≠ at_u s
    ∧ heap s !! at_u0 s = Some g ∧ heap s !! at_u s = Some g ∧ shaped g.
Proof.
  intros Hj Hn.
  destruct (run_arrays n junk Hj ltac:(lia)) as (g & b & Hg & Hb & Sg & _ & _ & Hbg).
  specialize (Hbg ltac:(lia)). subst b.
  rewrite grid_after_unfold in Hg. rewrite buffer_after_unfold in Hb.
  destruct (after n junk) as [s|] eqn:Hs; [|discriminate Hg].
  cbn [mbind option_bind] in Hg, Hb.
  destruct (live_after n junk s Hs) as (_ & _ & Hne).
  exists s, g. split; [reflexivity|]. split; [exact Hne|].
  split; [exact Hg|]. split; [exact Hb|exact Sg].
Qed.

Lemma names_stay_apart_witness :
  shaped zeros ∧ (1 ≤ 7 ≤ nsteps)%nat
  ∧ ∃ (s : state) (g : grid),
      after 7 zeros = Some s
      ∧ at_u0 s ≠ at_u s
      ∧ heap s !! at_u0 s = Some g ∧ heap s !! at_u s = Some g ∧ shaped g.
Proof.
  assert (shaped zeros) as H1 by (apply shaped_by_evaluation; vm_compute; reflexivity).
  assert (1 ≤ 7 ≤ nsteps)%nat as H2 by (unfold nsteps; lia).
  split; [exact H1|]. split; [exact H2|].
  exact (names_stay_apart zeros 7 H1 H2).
Defined.

(** X10. Whatever [np.empty] returned, all [nsteps] iterations of the loop
    complete without raising, and one more iteration would raise. *)
Theorem run_completes_and_cannot_go_on (junk : grid) :
  shaped junk →
  (∀ n, (n ≤ nsteps)%nat → is_Some (after n junk))
  ∧ after (S nsteps) junk = None.
Proof.
  intros Hj.
  assert (∀ n, (n ≤ nsteps)%nat →
            ∃ (s : state) (g : grid), after n junk = Some s
              ∧ heap s !! at_u0 s = Some g ∧ shaped g) as Hrun.
  { intros n Hn.
    destruct (run_arrays n junk Hj Hn) as (g & b & Hg & _ & Sg & _).
    rewrite grid_after_unfold in Hg.
    destruct (after n junk) as [s|]; [|discriminate Hg].
    exists s, g. split; [reflexivity|]. split; [exact Hg|exact Sg]. }
  split.
  - intros n Hn. destruct (Hrun n Hn) as (s & _ & -> & _). by eexists.
  - destruct (Hrun nsteps ltac:(lia)) as (s & g & Hs & Hg & Sg).
    rewrite after_S, Hs. cbn [mbind option_bind].
    rewrite (iteration_raises nsteps s g Hg (sink_raises g Sg)). reflexivity.
Qed.

Lemma run_completes_and_cannot_go_on_witness :
  shaped stale
  ∧ (∀ n, (n ≤ nsteps)%nat → is_Some (after n stale))
  ∧ after (S nsteps) stale = None.
Proof.
  assert (shaped stale) as H1 by (apply shaped_by_evaluation; vm_compute; reflexivity).
  split; [exact H1|].
  exact (run_completes_and_cannot_go_on stale H1).
Defined.

(** X11. When the loop has finished the renderer holds exactly four
    images, titled 0, 100, 500 and 990, which hold the grids as they were
    after the iterations [m = 0], 10, 50 and 99; they are four different
    objects, none of them bound to [u0] or [u], so no later iteration has
    changed them. *)
Theorem renderer_gets_four_grids (junk : grid) :
  shaped junk →
  ∃ (s : state) (l0 l1 l2 l3 : loc),
    after nsteps junk = Some s
    ∧ shown s = [(0, l0); (100, l1); (500, l2); (990, l3)]%nat
    ∧ heap s !! l0 = grid_after 1 junk ∧ heap s !! l1 = grid_after 11 junk
    ∧ heap s !! l2 = grid_after 51 junk ∧ heap s !! l3 = grid_after 100 junk
    ∧ NoDup [l0; l1; l2; l3]
    ∧ Forall (λ l, is_Some (heap s !! l) ∧ l ≠ at_u0 s ∧ l ≠ at_u s) [l0; l1; l2; l3].
Proof.
  intros Hj.
  destruct (run_arrays nsteps junk Hj ltac:(lia)) as (g & _ & Hg & _).
  rewrite grid_after_unfold in Hg.
  destruct (after nsteps junk) as [s|] eqn:Hs; [|discriminate Hg]. clear Hg.
  destruct (images_of_the_run nsteps junk s Hj ltac:(lia) Hs) as [Himgs Hnd].
  change (figure_steps nsteps) with [0; 10; 50; 99]%nat in Himgs.
  remember (shown s) as sh eqn:Hsh.
  destruct sh as [|[t0 l0] sh]; [inversion Himgs|].
  apply Forall2_cons in Himgs as [(T0 & A0 & C0 & N0 & U0) Himgs].
  destruct sh as [|[t1 l1] sh]; [inversion Himgs|].
  apply Forall2_cons in Himgs as [(T1 & A1 & C1 & N1 & U1) Himgs].
  destruct sh as [|[t2 l2] sh]; [inversion Himgs|].
  apply Forall2_cons in Himgs as [(T2 & A2 & C2 & N2 & U2) Himgs].
  destruct sh as [|[t3 l3] sh]; [inversion Himgs|].
  apply Forall2_cons in Himgs as [(T3 & A3 & C3 & N3 & U3) Himgs].
  destruct sh as [|? sh]; [|inversion Himgs].
  cbn [fst snd] in *. subst t0 t1 t2 t3.
  exists s, l0, l1, l2, l3. split; [reflexivity|].
  split; [rewrite <- Hsh; reflexivity|].
  split; [exact C0|]. split; [exact C1|]. split; [exact C2|]. split; [exact C3|].
  split; [exact Hnd|].
  repeat (constructor; [split; [assumption|split; assumption]|]). constructor.
Qed.

Lemma renderer_gets_four_grids_witness :
  shaped zeros
  ∧ ∃ (s : state) (l0 l1 l2 l3 : loc),
      after nsteps zeros = Some s
      ∧ shown s = [(0, l0); (100, l1); (500, l2); (990, l3)]%nat
      ∧ heap s !! l0 = grid_after 1 zeros ∧ heap s !! l1 = grid_after 11 zeros
      ∧ heap s !! l2 = grid_after 51 zeros ∧ heap s !! l3 = grid_after 100 zeros
      ∧ NoDup [l0; l1; l2; l3]
      ∧ Forall (λ l, is_Some (heap s !! l) ∧ l ≠ at_u0 s ∧ l ≠ at_u s) [l0; l1; l2; l3].
Proof.
  assert (shaped zeros) as H1 by (apply shaped_by_evaluation; vm_compute; reflexivity).
  split; [exact H1|].
  exact (renderer_gets_four_grids zeros H1).
Defined.

(** X12. The run depends on the uninitialised buffer only through the 51
    cells [u[0,25..75]]: two buffers that agree there give the same grid
    after every step. *)
Theorem run_reads_51_buffer_cells (junk junk' : grid) (n : nat) :
  shaped junk → shaped junk' →
  (∀ c, (25 ≤ c ≤ 75)%nat → cell junk 0 c = cell junk' 0 c) →
  (n ≤ nsteps)%nat →
  grid_after n junk = grid_after n junk' ∧ is_Some (grid_after n junk).
Proof.
  intros Hj Hj' Hagree Hn. induction n as [|n IH].
  - rewrite !grid_after_0. split; [reflexivity|by eexists].
  - destruct (IH ltac:(lia)) as [Eg _].
    destruct (run_arrays n junk Hj ltac:(lia)) as (g & b & Hg & Hb & Sg & Sb & Hret & Hbg).
    destruct (run_arrays n junk' Hj' ltac:(lia))
      as (g' & b' & Hg' & Hb' & _ & Sb' & Hret' & Hbg').
    rewrite Hg, Hg' in Eg. injection Eg as <-.
    pose proof (sink_Some n g Sg ltac:(lia)) as Ha.
    set (a := assign_row_scalar _ _ _ _ _) in Ha.
    assert (shaped a) as Sa by apply shaped_assign_row_scalar, shaped_assign2, Sg.
    destruct (arrays_after_S n junk) as [E1 _].
    destruct (arrays_after_S n junk') as [E1' _].
    rewrite Hg, Hb in E1. rewrite Hg', Hb' in E1'.
    cbn [mbind option_bind] in E1, E1'. rewrite Ha in E1, E1'.
    cbn [mbind option_bind] in E1, E1'.
    rewrite E1, E1'. split; [|by eexists]. f_equal.
    apply diffuse_buffer_ext; [exact Sa|exact Sb|exact Sb'|].
    intros c Hc. rewrite (Hret c Hc), (Hret' c Hc). by apply Hagree.
Qed.

Lemma run_reads_51_buffer_cells_witness :
  shaped zeros ∧ shaped (set_cell 50 50 7 zeros)
  ∧ (∀ c, (25 ≤ c ≤ 75)%nat → cell zeros 0 c = cell (set_cell 50 50 7 zeros) 0 c)
  ∧ (3 ≤ nsteps)%nat
  ∧ grid_after 3 zeros = grid_after 3 (set_cell 50 50 7 zeros)
  ∧ is_Some (grid_after 3 zeros).
Proof.
  assert (shaped zeros) as H1 by (apply shaped_by_evaluation; vm_compute; reflexivity).
  destruct dented_buffer as [H2 H3].
  assert (3 ≤ nsteps)%nat as H4 by (unfold nsteps; lia).
  split; [exact H1|]. split; [exact H2|]. split; [exact H3|]. split; [exact H4|].
  exact (run_reads_51_buffer_cells zeros (set_cell 50 50 7 zeros) 3 H1 H2 H3 H4).
Defined.

(** X13. Heat spreads by one cell per step: after [n] steps every cell
    more than [n + 1] rows down, or more than [n] columns to the left of
    column 25 or to the right of column 74, still holds [Tmantle]. *)
Theorem heat_spreads_one_cell_per_step (junk : grid) (n : nat) :
  shaped junk → (n ≤ nsteps)%nat →
  ∃ g : grid, grid_after n junk = Some g
    ∧ ∀ r c, (r < nx)%nat → (c < ny)%nat →
        (n + 1 < r)%nat ∨ (c + n < 25)%nat ∨ (74 + n < c)%nat →
        cell g r c == Tmantle.
Proof.
  intros Hj Hn. induction n as [|n IH].
  - exists init_u0. split; [apply grid_after_0|].
    intros r c Hr Hc Hfar. rewrite (cell_init_u0 r c Hr Hc).
    rewrite bool_decide_false by lia. reflexivity.
  - destruct (IH ltac:(lia)) as (g & Hg & Far).
    destruct (run_arrays n junk Hj ltac:(lia))
      as (g' & b & Hg' & Hb & Sg & Sb & _).
    rewrite Hg in Hg'. injection Hg' as <-.
    pose proof (sink_Some n g Sg ltac:(lia)) as Ha.
    set (a := assign_row_scalar _ _ _ _ _) in Ha.
    assert (shaped a) as Sa by apply shaped_assign_row_scalar, shaped_assign2, Sg.
    destruct (arrays_after_S n junk) as [E1 _].
    rewrite Hg, Hb in E1. cbn [mbind option_bind] in E1.
    rewrite Ha in E1. cbn [mbind option_bind] in E1.
    assert (∀ r c, (r < nx)%nat → (c < ny)%nat →
              (n + 1 < r)%nat ∨ (c + n < 25)%nat ∨ (74 + n < c)%nat →
              cell a r c == Tmantle) as FarA.
    { intros r c Hr Hc Hfar. rewrite (cell_sink n g a r c Sg Ha Hr Hc).
      rewrite !bool_decide_false by lia. by apply Far. }
    exists (diffuse a b). split; [exact E1|].
    intros r c Hr Hc Hfar. rewrite (cell_diffuse a b r c Sa Sb Hr Hc).
    destruct (pinned r c) eqn:Hp; [reflexivity|].
    apply not_true_iff_false in Hp. rewrite pinned_true in Hp.
    rewrite bool_decide_true by (unfold nx, ny in *; lia).
    unfold five_point.
    apply update_of_mantle; apply FarA; unfold nx, ny in *; lia.
Qed.

Lemma heat_spreads_one_cell_per_step_witness :
  shaped stale ∧ (10 ≤ nsteps)%nat
  ∧ ∃ g : grid, grid_after 10 stale = Some g
      ∧ ∀ r c, (r < nx)%nat → (c < ny)%nat →
          (10 + 1 < r)%nat ∨ (c + 10 < 25)%nat ∨ (74 + 10 < c)%nat →
          cell g r c == Tmantle.
Proof.
  assert (shaped stale) as H1 by (apply shaped_by_evaluation; vm_compute; reflexivity).
  assert (10 ≤ nsteps)%nat as H2 by (unfold nsteps; lia).
  split; [exact H1|]. split; [exact H2|].
  exact (heat_spreads_one_cell_per_step stale 10 H1 H2).
Defined.
